(** * adafruit_esp32spi_socket: a socket over the ESP32 SPI command set

    Shallow embedding of [adafruit_esp32spi/adafruit_esp32spi_socket.py]
    and the properties of its buffered reads.

    Conventions of the embedding.
    - [bytes] objects are lists of [Byte.byte].
    - Integers are [Z]; readings of [time.monotonic()] and the user timeout
      are rationals ([Q]); rounding of floating point is not modelled.
    - [_the_interface] is duck-typed in the source: it is a type class
      [Interface] here, each method a transition of the interface's own
      state that answers with a value or raises.
    - Every call that leaves the module (the interface's methods,
      [time.monotonic], [print], [gc.collect]) is recorded, in order, in the
      [trace] of the [world].
    - [while] loops take fuel; a loop that is still running when the fuel is
      used up yields [Diverge]. *)

From Stdlib Require Import String Strings.Byte.
From Stdlib Require Import List ZArith QArith Bool Lia.
Import ListNotations.
Open Scope Z_scope.

(** ** Bytes *)

Definition bytes := list byte.

Definition CR : byte := x0d.
Definition LF : byte := x0a.
(** [b'\r\n'] *)
Definition CRLF : bytes := [CR; LF].

(** [len(b)] *)
Definition len {A : Type} (b : list A) : Z := Z.of_nat (length b).

(** [b.startswith(p)] *)
Fixpoint startswith (p b : bytes) : bool :=
  match p, b with
  | [], _ => true
  | _ :: _, [] => false
  | x :: p', y :: b' => Byte.eqb x y && startswith p' b'
  end.

(** [sep in b] *)
Fixpoint bytes_in (sep b : bytes) : bool :=
  startswith sep b
  || match b with
     | [] => false
     | _ :: b' => bytes_in sep b'
     end.

(** [b.partition(sep)] without the separator: the part before the first
    occurrence of [sep] and, when there is one, the part after it. *)
Fixpoint cut (sep b : bytes) : bytes * option bytes :=
  if startswith sep b then ([], Some (skipn (length sep) b))
  else match b with
       | [] => ([], None)
       | x :: b' => let (l, r) := cut sep b' in (x :: l, r)
       end.

(** [b.split(sep, 1)] for a non-empty [sep]: at most one split, at the
    first occurrence. *)
Definition split1 (sep b : bytes) : list bytes :=
  match cut sep b with
  | (l, None) => [l]
  | (l, Some r) => [l; r]
  end.

(** The index a slice bound [i] denotes in a sequence of [n] items: negative
    bounds count from the end, and all bounds are clipped to [0..n]. *)
Definition slice_bound (i : Z) (n : nat) : nat :=
  if i <? 0 then Z.to_nat (Z.max 0 (Z.of_nat n + i))
  else Z.to_nat (Z.min i (Z.of_nat n)).

(** [b[:i]] *)
Definition slice_to (i : Z) (b : bytes) : bytes :=
  firstn (slice_bound i (length b)) b.

(** [b[i:]] *)
Definition slice_from (i : Z) (b : bytes) : bytes :=
  skipn (slice_bound i (length b)) b.

(** [b''.join(chunks)] *)
Definition join (chunks : list bytes) : bytes := concat chunks.

(** ** Values, exceptions, calls *)

(** The Python values that cross the module's boundary untyped: hosts,
    ports, resolved addresses and the arguments of [print]. *)
Inductive pyval : Type :=
| PyNone
| PyBool (b : bool)
| PyInt (z : Z)
| PyFloat (q : Q)
| PyStr (s : string)
| PyBytes (b : bytes).

(** [isinstance(v, int)]; [bool] is a subclass of [int]. *)
Definition isinstance_int (v : pyval) : bool :=
  match v with
  | PyInt _ | PyBool _ => true
  | _ => false
  end.

Record exn : Type := mk_exn { exn_class : string; exn_args : list pyval }.

Definition RuntimeError (args : list pyval) : exn := mk_exn "RuntimeError" args.
Definition ValueError (args : list pyval) : exn := mk_exn "ValueError" args.

(** What a call to the interface comes back with. *)
Inductive answer (A : Type) : Type :=
| Ans (a : A)
| Exc (e : exn).
Arguments Ans {A} a.
Arguments Exc {A} e.

(** The calls that leave the module. *)
Inductive call : Type :=
| get_host_by_name_ (host : pyval)
| get_socket_
| socket_connect_ (socknum : Z) (host port : pyval) (conn_mode : Z)
| socket_write_ (socknum : Z) (data : bytes)
| socket_available_ (socknum : Z)
| socket_read_ (socknum : Z) (size : Z)
| socket_close_ (socknum : Z)
| monotonic_
| print_ (args : list pyval)
| gc_collect_.

(** The calls that go to the transport. *)
Definition transport_call (c : call) : bool :=
  match c with
  | monotonic_ | print_ _ | gc_collect_ => false
  | _ => true
  end.

(** ** The interface and the clock *)

Class Interface (I : Type) : Type := {
  TCP_MODE : Z;
  get_host_by_name : pyval -> I -> answer pyval * I;
  get_socket : I -> answer Z * I;
  socket_connect : Z -> pyval -> pyval -> Z -> I -> answer bool * I;
  socket_write : Z -> bytes -> I -> answer unit * I;
  socket_available : Z -> I -> answer Z * I;
  socket_read : Z -> Z -> I -> answer bytes * I;
  socket_close : Z -> I -> answer unit * I
}.

Class Clock (C : Type) : Type := {
  monotonic : C -> Q * C
}.

(** ** Constants of the module *)

Definition SOCK_STREAM : Z := 1.
Definition AF_INET : Z := 2.
Definition MAX_PACKET : Z := 4000.

(** [a > b] on time readings *)
Definition Qgtb (a b : Q) : bool := negb (Qle_bool a b).

(** ** Outcomes and the state monad *)

Inductive outcome (A : Type) : Type :=
| Return (a : A)
| Raise (e : exn)
| Diverge.
Arguments Return {A} a.
Arguments Raise {A} e.
Arguments Diverge {A}.

Definition M (S A : Type) : Type := S -> outcome A * S.

Definition ret {S A : Type} (a : A) : M S A := fun s => (Return a, s).

Definition bind {S A B : Type} (m : M S A) (k : A -> M S B) : M S B :=
  fun s =>
    match m s with
    | (Return a, s') => k a s'
    | (Raise e, s') => (Raise e, s')
    | (Diverge, s') => (Diverge, s')
    end.

Definition raise {S A : Type} (e : exn) : M S A := fun s => (Raise e, s).
Definition diverge {S A : Type} : M S A := fun s => (Diverge, s).

Declare Scope monad_scope.
Delimit Scope monad_scope with monad.
Notation "x <- m ;; k" := (bind m (fun x => k))
  (at level 61, m at next level, right associativity) : monad_scope.
Notation "m ;;; k" := (bind m (fun _ => k))
  (at level 61, right associativity) : monad_scope.
Open Scope monad_scope.

(** ** The world outside the module *)

Record world (I C : Type) : Type := mk_world {
  _the_interface : I;
  the_clock : C;
  trace : list call
}.
Arguments mk_world {I C} _ _ _.
Arguments _the_interface {I C} _.
Arguments the_clock {I C} _.
Arguments trace {I C} _.

(** The attributes of a [socket] object. *)
Record socket : Type := mk_socket {
  _buffer : bytes;
  _socknum : Z;
  _timeout : Q
}.

Definition with_buffer (b : bytes) (self : socket) : socket :=
  mk_socket b (_socknum self) (_timeout self).

Definition with_timeout (value : Q) (self : socket) : socket :=
  mk_socket (_buffer self) (_socknum self) value.

(** One entry of the list [getaddrinfo] returns:
    [(family, socktype, proto, canonname, (ip, port))]. *)
Definition addrinfo : Type := Z * Z * Z * string * (pyval * pyval).

Section Socket.

Context {I C : Type} {interface : Interface I} {clock : Clock C}.

Local Abbreviation world := (world I C).
(** The state a method runs in: [self] and the world. *)
Local Abbreviation state := (socket * world)%type.

(** *** Calls that leave the module *)

Definition log (c : call) (w : world) : world :=
  mk_world (_the_interface w) (the_clock w) (trace w ++ [c]).

(** A call [c] to a method [op] of [_the_interface]. *)
Definition interface_call {A : Type} (c : call) (op : I -> answer A * I)
  : M world A :=
  fun w =>
    match op (_the_interface w) with
    | (Ans a, i) => (Return a, mk_world i (the_clock w) (trace w ++ [c]))
    | (Exc e, i) => (Raise e, mk_world i (the_clock w) (trace w ++ [c]))
    end.

Definition iface_get_host_by_name (host : pyval) : M world pyval :=
  interface_call (get_host_by_name_ host) (get_host_by_name host).

Definition iface_get_socket : M world Z :=
  interface_call get_socket_ get_socket.

Definition iface_socket_connect (socknum : Z) (host port : pyval)
    (conn_mode : Z) : M world bool :=
  interface_call (socket_connect_ socknum host port conn_mode)
    (socket_connect socknum host port conn_mode).

Definition iface_socket_write (socknum : Z) (data : bytes) : M world unit :=
  interface_call (socket_write_ socknum data) (socket_write socknum data).

Definition iface_socket_available (socknum : Z) : M world Z :=
  interface_call (socket_available_ socknum) (socket_available socknum).

Definition iface_socket_read (socknum : Z) (size : Z) : M world bytes :=
  interface_call (socket_read_ socknum size) (socket_read socknum size).

Definition iface_socket_close (socknum : Z) : M world unit :=
  interface_call (socket_close_ socknum) (socket_close socknum).

(** [time.monotonic()] *)
Definition time_monotonic : M world Q :=
  fun w =>
    let (t, c) := monotonic (the_clock w) in
    (Return t, mk_world (_the_interface w) c (trace w ++ [monotonic_])).

Definition print (args : list pyval) : M world unit :=
  fun w => (Return tt, log (print_ args) w).

Definition gc_collect : M world unit :=
  fun w => (Return tt, log gc_collect_ w).

(** *** Access to [self] *)

Definition lift {A : Type} (m : M world A) : M state A :=
  fun s => let (o, w) := m (snd s) in (o, (fst s, w)).

Definition get_self : M state socket := fun s => (Return (fst s), s).

Definition set_buffer (b : bytes) : M state unit :=
  fun s => (Return tt, (with_buffer b (fst s), snd s)).

Definition set_timeout (value : Q) : M state unit :=
  fun s => (Return tt, (with_timeout value (fst s), snd s)).

(** Runs a method on the object [self] and hands the object back. *)
Definition on_object {A : Type} (self : socket) (m : M state A)
  : M world socket :=
  fun w =>
    match m (self, w) with
    | (Return _, (self', w')) => (Return self', w')
    | (Raise e, (_, w')) => (Raise e, w')
    | (Diverge, (_, w')) => (Diverge, w')
    end.

(** *** getaddrinfo *)

Definition getaddrinfo (host port : pyval) (family socktype proto flags : Z)
  : M world (list addrinfo) :=
  if negb (isinstance_int port) then
    raise (RuntimeError [PyStr "Port must be an integer"])
  else
    ipaddr <- iface_get_host_by_name host ;;
    ret [(AF_INET, socktype, proto, EmptyString, (ipaddr, port))].

(** *** class socket *)

Definition settimeout (value : Q) : M state unit :=
  lift (print [PyStr "setting timeout: "; PyFloat value]) ;;;
  set_timeout value.

Definition close : M state unit :=
  self <- get_self ;;
  lift (iface_socket_close (_socknum self)).

(** [socket(family, type, proto, fileno)].  The object under construction
    has no [_timeout] until [settimeout(0)] assigns it; the record carries
    [0] in that field from the start. *)
Definition __init__ (family type proto : Z) (fileno : pyval)
  : M world socket :=
  if negb (family =? AF_INET) then
    raise (RuntimeError [PyStr "Only AF_INET family supported"])
  else if negb (type =? SOCK_STREAM) then
    raise (RuntimeError [PyStr "Only SOCK_STREAM type supported"])
  else
    socknum <- iface_get_socket ;;
    on_object (mk_socket [] socknum 0)
      (settimeout 0 ;;;
       lift (print [PyStr "socket created"])).

Definition connect (address : pyval * pyval) (conntype : option Z)
  : M state unit :=
  lift (print [PyStr "connecting..."]) ;;;
  let (host, port) := address in
  let conntype := match conntype with
                  | None => TCP_MODE
                  | Some mode => mode
                  end in
  self <- get_self ;;
  connected <- lift (iface_socket_connect (_socknum self) host port
                       conntype) ;;
  if negb connected then
    raise (RuntimeError [PyStr "Failed to connect to host"; host])
  else
    set_buffer [].

Definition write (data : bytes) : M state unit :=
  self <- get_self ;;
  lift (iface_socket_write (_socknum self) data) ;;;
  lift gc_collect.

(** [avail = min(_the_interface.socket_available(self._socknum), MAX_PACKET)] *)
Definition poll_avail : M state Z :=
  self <- get_self ;;
  available <- lift (iface_socket_available (_socknum self)) ;;
  ret (Z.min available MAX_PACKET).

(** [_the_interface.socket_read(self._socknum, size)] *)
Definition transport_read (size : Z) : M state bytes :=
  self <- get_self ;;
  lift (iface_socket_read (_socknum self) size).

(** [self._buffer += data] *)
Definition extend_buffer (data : bytes) : M state unit :=
  self <- get_self ;;
  set_buffer (_buffer self ++ data).

(** The loop of [readline]: [while b'\r\n' not in self._buffer]. *)
Fixpoint readline_loop (fuel : nat) (stamp : Q) : M state unit :=
  self <- get_self ;;
  if negb (bytes_in CRLF (_buffer self)) then
    match fuel with
    | O => diverge
    | S fuel' =>
        avail <- poll_avail ;;
        (if negb (avail =? 0) then lift (print [PyStr "avail: "; PyInt avail])
         else ret tt) ;;;
        (if negb (avail =? 0) then
           data <- transport_read avail ;;
           extend_buffer data
         else
           self <- get_self ;;
           if Qgtb (_timeout self) 0 then
             now <- lift time_monotonic ;;
             if Qgtb (now - stamp) (_timeout self) then
               close ;;;
               raise (RuntimeError
                        [PyStr "Didn't receive full response, failing out"])
             else ret tt
           else ret tt) ;;;
        readline_loop fuel' stamp
    end
  else ret tt.

(** What [readline] does once its loop has ended. *)
Definition readline_finish : M state bytes :=
  self <- get_self ;;
  match split1 CRLF (_buffer self) with
  | [firstline; rest] =>
      set_buffer rest ;;;
      lift gc_collect ;;;
      ret firstline
  | _ => raise (ValueError [PyStr "need more than 1 values to unpack"])
  end.

Definition readline (fuel : nat) : M state bytes :=
  stamp <- lift time_monotonic ;;
  readline_loop fuel stamp ;;;
  readline_finish.

(** The loop of [read(0)]: [while True]. *)
Fixpoint read_all_loop (fuel : nat) : M state unit :=
  match fuel with
  | O => diverge
  | S fuel' =>
      avail <- poll_avail ;;
      if negb (avail =? 0) then
        data <- transport_read avail ;;
        extend_buffer data ;;;
        read_all_loop fuel'
      else ret tt
  end.

Definition read_timeout : Z := 8.

(** The loop of [read(size)]: [while to_read > 0], with its local
    variables [to_read], [stamp] and [received]. *)
Fixpoint read_loop (fuel : nat) (to_read : Z) (stamp : Q)
    (received : list bytes) : M state (list bytes) :=
  if 0 <? to_read then
    match fuel with
    | O => diverge
    | S fuel' =>
        avail <- poll_avail ;;
        locals <- (if negb (avail =? 0) then
                     stamp' <- lift time_monotonic ;;
                     recv <- transport_read (Z.min to_read avail) ;;
                     lift gc_collect ;;;
                     ret (to_read - len recv, stamp', received ++ [recv])
                   else ret (to_read, stamp, received)) ;;
        let '(to_read, stamp, received) := locals in
        stalled <- (if 0 <? read_timeout then
                      now <- lift time_monotonic ;;
                      ret (Qgtb (now - stamp) (inject_Z read_timeout))
                    else ret false) ;;
        if stalled : bool then
          lift (print [PyStr "socket.read timeout "; PyInt read_timeout]) ;;;
          ret received
        else read_loop fuel' to_read stamp received
    end
  else ret received.

(** What [read(size)] does once its loop has ended. *)
Definition read_finish (size : Z) (received : list bytes) : M state bytes :=
  extend_buffer (join received) ;;;
  self <- get_self ;;
  r <- (if len (_buffer self) =? size then
          let r := _buffer self in
          set_buffer [] ;;;
          ret r
        else
          let r := slice_to size (_buffer self) in
          set_buffer (slice_from size (_buffer self)) ;;;
          ret r) ;;
  lift gc_collect ;;;
  ret r.

Definition read (fuel : nat) (size : Z) : M state bytes :=
  if size =? 0 then
    read_all_loop fuel ;;;
    lift gc_collect ;;;
    self <- get_self ;;
    let r := _buffer self in
    set_buffer [] ;;;
    lift gc_collect ;;;
    ret r
  else
    stamp <- lift time_monotonic ;;
    self <- get_self ;;
    let to_read := size - len (_buffer self) in
    received <- read_loop fuel to_read stamp [] ;;
    read_finish size received.

(** *** What the transport holds for [read(0)]

    [queued socknum w polls w']: from the world [w] on, the availability
    polls of [socknum] report the nonzero counts of [polls] in turn, each
    followed by a read of that count capped at [MAX_PACKET] which yields the
    chunk paired with it; the poll after them reports zero and leaves the
    world [w']. *)
Inductive queued (socknum : Z) : world -> list (Z * bytes) -> world -> Prop :=
| queued_none (w w1 : world) :
    iface_socket_available socknum w = (Return 0, w1) ->
    queued socknum w [] w1
| queued_chunk (w w1 w2 w' : world) (available : Z) (chunk : bytes)
    (polls : list (Z * bytes)) :
    iface_socket_available socknum w = (Return available, w1) ->
    available <> 0 ->
    iface_socket_read socknum (Z.min available MAX_PACKET) w1
      = (Return chunk, w2) ->
    queued socknum w2 polls w' ->
    queued socknum w ((available, chunk) :: polls) w'.

(** The calls [read(0)] makes for the polls [polls]. *)
Definition drain_calls (socknum : Z) (polls : list (Z * bytes)) : list call :=
  flat_map (fun poll => [socket_available_ socknum;
                         socket_read_ socknum (Z.min (fst poll) MAX_PACKET)])
    polls
  ++ [socket_available_ socknum].

End Socket.

(** ** A scripted transport and clock

    A device to run the module against.  Each availability poll first moves
    the next chunk of [arrivals] into [pending]; a read takes bytes from the
    head of [pending].  Each reading of the clock advances it by [step]. *)

Record device : Type := mk_device {
  arrivals : list bytes;
  pending : bytes;
  free_sockets : list Z;
  reachable : bool;
  address_book : pyval
}.

Definition device_available (d : device) : answer Z * device :=
  match arrivals d with
  | [] => (Ans (len (pending d)), d)
  | a :: rest =>
      (Ans (len (pending d ++ a)),
       mk_device rest (pending d ++ a) (free_sockets d) (reachable d)
         (address_book d))
  end.

Definition device_read (size : Z) (d : device) : answer bytes * device :=
  (Ans (firstn (Z.to_nat size) (pending d)),
   mk_device (arrivals d) (skipn (Z.to_nat size) (pending d))
     (free_sockets d) (reachable d) (address_book d)).

Definition device_get_socket (d : device) : answer Z * device :=
  match free_sockets d with
  | [] => (Exc (RuntimeError [PyStr "No sockets available"]), d)
  | s :: rest =>
      (Ans s,
       mk_device (arrivals d) (pending d) rest (reachable d) (address_book d))
  end.

#[export] Instance device_interface : Interface device := {
  TCP_MODE := 0;
  get_host_by_name := fun _ d => (Ans (address_book d), d);
  get_socket := device_get_socket;
  socket_connect := fun _ _ _ _ d => (Ans (reachable d), d);
  socket_write := fun _ _ d => (Ans tt, d);
  socket_available := fun _ d => device_available d;
  socket_read := fun _ size d => device_read size d;
  socket_close := fun _ d => (Ans tt, d)
}.

Record stepper : Type := mk_stepper { now : Q; step : Q }.

#[export] Instance stepper_clock : Clock stepper := {
  monotonic := fun c => (now c, mk_stepper (now c + step c) (step c))
}.

(** A device with nothing queued but [arrivals]. *)
Definition quiet (arrivals : list bytes) : device :=
  mk_device arrivals [] [0; 1; 2] true (PyBytes [x0a; x00; x00; x01]).

(** The world at start-up: [device] attached, the clock at [0], advancing
    by one unit at each reading, nothing called yet. *)
Definition boot (d : device) : world device stepper :=
  mk_world d (mk_stepper 0 1) [].

Definition ascii_bytes (s : string) : bytes := list_byte_of_string s.

(** A socket on socket number [0]. *)
Definition sock (buffer : bytes) (timeout : Q) : socket :=
  mk_socket buffer 0 timeout.

(** [b"GET / \r\nHost: x"] *)
Definition request : bytes :=
  ascii_bytes "GET / " ++ CRLF ++ ascii_bytes "Host: x".

(** The world some time after start-up, the clock at [t]. *)
Definition later (d : device) (t : Q) : world device stepper :=
  mk_world d (mk_stepper t 1) [].

(** A device that refuses connections and holds nothing. *)
Definition unreachable : device :=
  mk_device [] [] [0; 1; 2] false (PyBytes [x0a; x00; x00; x01]).

(** ** What the reading methods may do

    The calls a reading method of the socket [socknum] is expected to make:
    polls and reads of its own socket number, no read of more than
    [MAX_PACKET] bytes, and the clock, [print] and [gc.collect]. *)
Definition reading_call (socknum : Z) (c : call) : bool :=
  match c with
  | socket_available_ s => s =? socknum
  | socket_read_ s size => (s =? socknum) && (size <=? MAX_PACKET)
  | monotonic_ | print_ _ | gc_collect_ => true
  | _ => false
  end.

(** [readline] may also close its own socket. *)
Definition readline_call (socknum : Z) (c : call) : bool :=
  reading_call socknum c
  || match c with
     | socket_close_ s => s =? socknum
     | _ => false
     end.

Section Invariants.

Context {I C : Type} {interface : Interface I} {clock : Clock C}.

(** [grows ok post m]: run on any object and world, [m] leaves the object
    as it was but for bytes appended to [_buffer], appends to the trace
    only calls that [ok] accepts for the object's socket number, and
    returns only values that satisfy [post]. *)
Definition grows (ok : Z -> call -> bool) {A : Type} (post : A -> Prop)
    (m : M (socket * world I C) A) : Prop :=
  forall (self : socket) (w : world I C),
  exists (extra : bytes) (new : list call),
    fst (snd (m (self, w))) = with_buffer (_buffer self ++ extra) self
    /\ trace (snd (snd (m (self, w)))) = trace w ++ new
    /\ forallb (ok (_socknum self)) new = true
    /\ forall a : A, fst (m (self, w)) = Return a -> post a.

End Invariants.

(** ** A transport that breaks down

    The scripted device behind a link that carries [good_reads] reads and
    is down after them: reads and connects raise. *)
Record flaky : Type := mk_flaky { inner : device; good_reads : nat }.

Definition through {A : Type} (k : nat) (r : answer A * device)
  : answer A * flaky :=
  (fst r, mk_flaky (snd r) k).

Definition flaky_read (size : Z) (f : flaky) : answer bytes * flaky :=
  match good_reads f with
  | O => (Exc (RuntimeError [PyStr "ESP32 not responding"]), f)
  | S k => through k (device_read size (inner f))
  end.

#[export] Instance flaky_interface : Interface flaky := {
  TCP_MODE := 0;
  get_host_by_name := fun _ f => (Ans (address_book (inner f)), f);
  get_socket := fun f =>
    through (good_reads f) (device_get_socket (inner f));
  socket_connect := fun _ _ _ _ f =>
    match good_reads f with
    | O => (Exc (RuntimeError [PyStr "ESP32 not responding"]), f)
    | S _ => (Ans (reachable (inner f)), f)
    end;
  socket_write := fun _ _ f => (Ans tt, f);
  socket_available := fun _ f =>
    through (good_reads f) (device_available (inner f));
  socket_read := fun _ size f => flaky_read size f;
  socket_close := fun _ f => (Ans tt, f)
}.

(** The world at start-up with the device behind a link good for
    [reads] reads. *)
Definition boot_flaky (d : device) (reads : nat) : world flaky stepper :=
  mk_world (mk_flaky d reads) (mk_stepper 0 1) [].


(** * Properties *)

(** ** Searching and cutting bytes *)

Lemma startswith_iff (p b : bytes) :
  startswith p b = true <-> exists r, b = p ++ r.
Proof.
  revert b; induction p as [|x p IH]; intros b; simpl.
  - split; [intros _; exists b; reflexivity | reflexivity].
  - destruct b as [|y b].
    + split; [discriminate | intros [r Hr]; discriminate].
    + rewrite andb_true_iff, IH. split.
      * intros [Hxy [r ->]]. apply byte_dec_bl in Hxy. subst y.
        exists r; reflexivity.
      * intros [r Hr]. injection Hr as -> ->. split.
        -- apply byte_dec_lb; reflexivity.
        -- exists r; reflexivity.
Qed.


(** [cut] finds the first occurrence of the separator. *)
Lemma cut_first (sep b : bytes) :
  bytes_in sep b = true ->
  exists l r,
    cut sep b = (l, Some r)
    /\ b = l ++ sep ++ r
    /\ forall l' r', b = l' ++ sep ++ r' -> (length l <= length l')%nat.
Proof.
  induction b as [|y b IH]; intros Hin.
  - simpl in Hin. rewrite orb_false_r in Hin.
    simpl. rewrite Hin.
    apply startswith_iff in Hin. destruct Hin as [r Hr].
    exists [], (skipn (length sep) []). repeat split.
    + destruct sep; [reflexivity | discriminate].
    + intros; simpl; lia.
  - simpl in Hin |- *.
    destruct (startswith sep (y :: b)) eqn:Hs.
    + apply startswith_iff in Hs. destruct Hs as [r Hr].
      exists [], (skipn (length sep) (y :: b)). repeat split.
      * rewrite Hr at 1. simpl. f_equal. rewrite Hr.
        rewrite skipn_app, skipn_all, Nat.sub_diag. reflexivity.
      * intros; simpl; lia.
    + simpl in Hin. destruct (IH Hin) as (l & r & Hc & Hb & Hmin).
      rewrite Hc. exists (y :: l), r. repeat split.
      * simpl; rewrite Hb; reflexivity.
      * intros l' r' H'. destruct l' as [|z l']; simpl in H'.
        -- assert (startswith sep (y :: b) = true) as Ht
             by (apply startswith_iff; exists r'; exact H').
           congruence.
        -- injection H' as _ H'. simpl. apply le_n_S. eapply Hmin; eauto.
Qed.

Lemma split1_first (sep b : bytes) :
  bytes_in sep b = true ->
  exists l r,
    split1 sep b = [l; r]
    /\ b = l ++ sep ++ r
    /\ forall l' r', b = l' ++ sep ++ r' -> (length l <= length l')%nat.
Proof.
  intros Hin. destruct (cut_first sep b Hin) as (l & r & Hc & Hb & Hmin).
  exists l, r. unfold split1. rewrite Hc. auto.
Qed.

Lemma slice_to_firstn (size : Z) (b : bytes) :
  0 <= size -> slice_to size b = firstn (Z.to_nat size) b.
Proof.
  intros Hs. unfold slice_to, slice_bound.
  destruct (Z.ltb_spec size 0); [lia|].
  destruct (Z.le_gt_cases size (Z.of_nat (length b))).
  - rewrite Z.min_l by lia. reflexivity.
  - rewrite Z.min_r by lia. rewrite Nat2Z.id.
    rewrite firstn_all. symmetry. apply firstn_all2. lia.
Qed.

Lemma slice_from_skipn (size : Z) (b : bytes) :
  0 <= size -> slice_from size b = skipn (Z.to_nat size) b.
Proof.
  intros Hs. unfold slice_from, slice_bound.
  destruct (Z.ltb_spec size 0); [lia|].
  destruct (Z.le_gt_cases size (Z.of_nat (length b))).
  - rewrite Z.min_l by lia. reflexivity.
  - rewrite Z.min_r by lia. rewrite Nat2Z.id.
    rewrite skipn_all. symmetry. apply skipn_all2. lia.
Qed.

Lemma Qgtb_true (a b : Q) : (b < a)%Q -> Qgtb a b = true.
Proof.
  intros H. unfold Qgtb. destruct (Qle_bool a b) eqn:E; [|reflexivity].
  apply Qle_bool_iff in E. exfalso. exact (Qlt_not_le _ _ H E).
Qed.

Lemma Qgtb_false (a b : Q) : (a <= b)%Q -> Qgtb a b = false.
Proof.
  intros H. unfold Qgtb. apply Qle_bool_iff in H. rewrite H. reflexivity.
Qed.

(** ** The socket *)

Section Properties.

Context {I C : Type} {interface : Interface I} {clock : Clock C}.

Local Abbreviation world := (world I C).
Local Abbreviation state := (socket * world)%type.

Ltac unfold_methods :=
  unfold readline, readline_finish, read, read_finish, connect, close,
    settimeout, write, poll_avail, transport_read, extend_buffer, __init__,
    getaddrinfo, on_object.

Ltac unfold_monad :=
  unfold bind, ret, raise, diverge, lift, get_self, set_buffer, set_timeout,
    print, gc_collect, log; simpl.

(** [time.monotonic()] returns a reading and leaves the interface alone. *)
Lemma time_monotonic_eq (w : world) :
  time_monotonic w
  = (Return (fst (monotonic (the_clock w))),
     mk_world (_the_interface w) (snd (monotonic (the_clock w)))
       (trace w ++ [monotonic_])).
Proof.
  unfold time_monotonic. destruct (monotonic (the_clock w)); reflexivity.
Qed.

Lemma interface_call_trace {A : Type} (c : call) (op : I -> answer A * I)
    (w w1 : world) (o : outcome A) :
  interface_call c op w = (o, w1) -> trace w1 = trace w ++ [c].
Proof.
  unfold interface_call.
  destruct (op (_the_interface w)) as [[a|e] i]; intros H; inversion H;
    reflexivity.
Qed.


(** The loop of [readline] is not entered when a line is buffered. *)
Lemma readline_loop_done (fuel : nat) (stamp : Q) (self : socket) (w : world) :
  bytes_in CRLF (_buffer self) = true ->
  readline_loop fuel stamp (self, w) = (Return tt, (self, w)).
Proof.
  intros Hin. destruct fuel; simpl; unfold_monad; rewrite Hin; reflexivity.
Qed.

(** The loop of [readline] ends normally only with a line in the buffer. *)
Lemma readline_loop_exit (fuel : nat) (stamp : Q) (s s' : state) :
  readline_loop fuel stamp s = (Return tt, s') ->
  bytes_in CRLF (_buffer (fst s')) = true.
Proof.
  revert s. induction fuel as [|fuel IH]; intros [self w]; simpl;
    unfold_monad.
  - destruct (bytes_in CRLF (_buffer self)) eqn:Hin; simpl.
    + intros H; inversion H; subst; exact Hin.
    + discriminate.
  - destruct (bytes_in CRLF (_buffer self)) eqn:Hin; simpl.
    + intros H; inversion H; subst; exact Hin.
    + unfold_methods. unfold_monad.
      destruct (iface_socket_available (_socknum self) w) as [[a| |] w1];
        try discriminate.
      destruct (Z.min a MAX_PACKET =? 0) eqn:Ha; simpl.
      * destruct (Qgtb (_timeout self) 0); [|apply IH].
        rewrite time_monotonic_eq.
        destruct (Qgtb _ (_timeout self)); [|apply IH].
        simpl.
        destruct (iface_socket_close (_socknum self) _) as [[[]| |] w3];
          discriminate.
      * destruct (iface_socket_read (_socknum self) _ _) as [[d| |] w2];
          try discriminate.
        apply IH.
Qed.

(** C10: with a CRLF already in the buffer, [readline()] returns a line
    whatever the fuel, the user timeout [v] and the interface: it reads the
    clock once and calls [gc.collect()], the interface is not called (no
    poll, read or close) and is left as it was, and nothing is raised. *)
Theorem readline_buffered_line_no_transport
    (fuel : nat) (self : socket) (w : world) (v : Q) :
  bytes_in CRLF (_buffer self) = true ->
  exists line rest,
    readline fuel (with_timeout v self, w)
    = (Return line,
       (with_timeout v (with_buffer rest self),
        mk_world (_the_interface w) (snd (monotonic (the_clock w)))
          (trace w ++ [monotonic_; gc_collect_]))).
Proof.
  intros Hin.
  destruct (split1_first CRLF (_buffer self) Hin) as (l & r & Hs & _).
  exists l, r.
  unfold readline, bind, lift at 1. simpl.
  rewrite time_monotonic_eq.
  rewrite readline_loop_done by exact Hin.
  unfold_methods. unfold_monad. rewrite Hs. simpl.
  rewrite <- app_assoc. reflexivity.
Qed.

(** C3: when the buffer holds a CRLF, the end of [readline] (reached with
    the line buffered at the call, or after the polls of the loop have
    brought one in) returns what precedes the first CRLF and keeps what
    follows it in the buffer; the delimiter is in neither. *)
Theorem readline_splits_at_first_CRLF
    (fuel : nat) (self : socket) (w : world) :
  bytes_in CRLF (_buffer self) = true ->
  exists line rest,
    _buffer self = line ++ CRLF ++ rest
    /\ (forall l r, _buffer self = l ++ CRLF ++ r ->
         (length line <= length l)%nat)
    /\ readline_finish (self, w)
       = (Return line, (with_buffer rest self, log gc_collect_ w))
    /\ readline fuel (self, w)
       = (Return line,
          (with_buffer rest self, log gc_collect_ (snd (time_monotonic w)))).
Proof.
  intros Hin.
  destruct (split1_first CRLF (_buffer self) Hin) as (l & r & Hs & Hb & Hmin).
  exists l, r.
  assert (readline_finish (self, w)
          = (Return l, (with_buffer r self, log gc_collect_ w))) as Hfin.
  { unfold_methods. unfold_monad. rewrite Hs. reflexivity. }
  repeat split; auto.
  - unfold readline, bind, lift at 1. simpl.
    rewrite time_monotonic_eq. simpl.
    rewrite readline_loop_done by exact Hin.
    unfold_methods. unfold_monad. rewrite Hs. reflexivity.
Qed.


(** The loop of [read(size)] is not entered when nothing is left to read. *)
Lemma read_loop_done (fuel : nat) (to_read : Z) (stamp : Q)
    (received : list bytes) (s : state) :
  to_read <= 0 ->
  read_loop fuel to_read stamp received s = (Return received, s).
Proof.
  intros H. destruct fuel; simpl; destruct (Z.ltb_spec 0 to_read);
    try lia; reflexivity.
Qed.

(** C7: with exactly [size] bytes in the buffer, [read(size)] returns them
    and empties the buffer, whatever the fuel and the interface: it reads
    the clock once and calls [gc.collect()], and the interface is not called
    (no poll, no read) and is left as it was. *)
Theorem read_exact_buffer_no_transport
    (fuel : nat) (size : Z) (self : socket) (w : world) :
  0 < size ->
  len (_buffer self) = size ->
  read fuel size (self, w)
  = (Return (_buffer self),
     (with_buffer [] self,
      mk_world (_the_interface w) (snd (monotonic (the_clock w)))
        (trace w ++ [monotonic_; gc_collect_]))).
Proof.
  intros Hpos Hlen. unfold read.
  destruct (Z.eqb_spec size 0) as [|_]; [lia|].
  unfold bind at 1. unfold lift at 1. simpl. rewrite time_monotonic_eq.
  unfold bind at 1. unfold get_self at 1. simpl.
  unfold bind at 1. rewrite read_loop_done by lia.
  unfold_methods. unfold_monad.
  rewrite app_nil_r. rewrite Hlen, Z.eqb_refl. simpl.
  rewrite <- app_assoc. reflexivity.
Qed.

(** The loop of [read(size)] works on its local variables only: [self] is
    the same object with the same attributes when it ends, however it ends. *)
Lemma read_loop_keeps_self (fuel : nat) (to_read : Z) (stamp : Q)
    (received : list bytes) (self : socket) (w : world) :
  fst (snd (read_loop fuel to_read stamp received (self, w))) = self.
Proof.
  revert to_read stamp received w.
  induction fuel as [|fuel IH]; intros to_read stamp received w; simpl;
    destruct (0 <? to_read); try reflexivity.
  unfold_methods. unfold_monad.
  destruct (iface_socket_available (_socknum self) w) as [[a| |] w1];
    try reflexivity.
  simpl. destruct (Z.min a MAX_PACKET =? 0); simpl.
  - rewrite time_monotonic_eq. simpl.
    destruct (Qgtb _ _); [reflexivity | apply IH].
  - rewrite time_monotonic_eq. simpl.
    destruct (iface_socket_read (_socknum self) _ _) as [[d| |] w2];
      try reflexivity.
    simpl. rewrite time_monotonic_eq. simpl.
    destruct (Qgtb _ _); [reflexivity | apply IH].
Qed.

(** The end of [read(size)] for a positive [size]: the first [size] bytes
    of what is held are returned, the rest is kept. *)
Lemma read_finish_eq (size : Z) (received : list bytes) (self : socket)
    (w : world) :
  0 < size ->
  read_finish size received (self, w)
  = (Return (firstn (Z.to_nat size) (_buffer self ++ join received)),
     (with_buffer (skipn (Z.to_nat size) (_buffer self ++ join received)) self,
      log gc_collect_ w)).
Proof.
  intros Hpos. unfold_methods. unfold_monad.
  set (held := _buffer self ++ join received).
  destruct (Z.eqb_spec (len held) size) as [Hlen|Hlen]; simpl.
  - unfold len in Hlen.
    rewrite firstn_all2, skipn_all2 by lia. reflexivity.
  - rewrite slice_to_firstn, slice_from_skipn by lia. reflexivity.
Qed.

(** C1: when the loop of [read(size)], [size > 0], has ended with the
    chunks [received], the buffer holds what it held at the call followed
    by the chunks.  If that is exactly [size] bytes, they are all returned
    and the buffer is left empty; otherwise the first [size] bytes are
    returned, all of them when fewer are held, and the bytes from index
    [size] on stay in the buffer.  Either way [read] returns: nothing is
    raised. *)
Theorem read_returns_head_of_buffer
    (fuel : nat) (size : Z) (self : socket) (w w0 : world) (stamp : Q)
    (received : list bytes) (s' : state) :
  0 < size ->
  time_monotonic w = (Return stamp, w0) ->
  read_loop fuel (size - len (_buffer self)) stamp [] (self, w0)
  = (Return received, s') ->
  let held := _buffer self ++ join received in
  fst s' = self
  /\ (len held = size ->
      read fuel size (self, w)
      = (Return held, (with_buffer [] self, log gc_collect_ (snd s'))))
  /\ (len held <> size ->
      read fuel size (self, w)
      = (Return (firstn (Z.to_nat size) held),
         (with_buffer (skipn (Z.to_nat size) held) self,
          log gc_collect_ (snd s')))
      /\ len (firstn (Z.to_nat size) held) = Z.min size (len held)).
Proof.
  intros Hpos Hclock Hloop held.
  assert (fst s' = self) as Hself.
  { pose proof (read_loop_keeps_self fuel (size - len (_buffer self)) stamp
                  [] self w0) as K.
    rewrite Hloop in K. exact K. }
  assert (read fuel size (self, w)
          = read_finish size received (self, snd s')) as Hread.
  { unfold read. destruct (Z.eqb_spec size 0) as [|_]; [lia|].
    unfold bind at 1. unfold lift at 1. simpl. rewrite Hclock.
    unfold bind at 1. unfold get_self at 1. simpl.
    unfold bind at 1. rewrite Hloop.
    destruct s' as [self' w']. simpl in Hself. subst self'. reflexivity. }
  split; [exact Hself|]. split; intros Hlen.
  - rewrite Hread. unfold_methods. unfold_monad. fold held.
    rewrite Hlen, Z.eqb_refl. reflexivity.
  - split.
    + rewrite Hread. apply read_finish_eq. exact Hpos.
    + unfold len. rewrite length_firstn. lia.
Qed.


(** X12: When a chunk arrives the loop of [read(size)] takes a new [stamp]:
    the stall is measured from the reading taken just before that read. *)
Lemma read_loop_chunk_restamps
    (fuel : nat) (to_read available : Z) (stamp stamp' now : Q)
    (received : list bytes) (recv : bytes) (self : socket)
    (w w1 w2 w3 w4 : world) :
  0 < to_read ->
  iface_socket_available (_socknum self) w = (Return available, w1) ->
  available <> 0 ->
  time_monotonic w1 = (Return stamp', w2) ->
  iface_socket_read (_socknum self)
    (Z.min to_read (Z.min available MAX_PACKET)) w2 = (Return recv, w3) ->
  time_monotonic (log gc_collect_ w3) = (Return now, w4) ->
  (now - stamp' <= 8)%Q ->
  read_loop (S fuel) to_read stamp received (self, w)
  = read_loop fuel (to_read - len recv) stamp' (received ++ [recv]) (self, w4).
Proof.
  intros Hto Hav Hnz Hstamp Hread Hclock Hearly.
  simpl. destruct (Z.ltb_spec 0 to_read); [|lia].
  unfold_methods. unfold_monad. rewrite Hav. simpl.
  destruct (Z.eqb_spec (Z.min available MAX_PACKET) 0) as [E|_].
  { unfold MAX_PACKET in E. lia. }
  simpl. rewrite Hstamp. simpl. rewrite Hread. simpl.
  unfold log in Hclock. rewrite Hclock. simpl.
  change (inject_Z read_timeout) with 8%Q.
  rewrite (Qgtb_false _ _ Hearly). reflexivity.
Qed.

(** [read(size)] never looks at the user timeout: with another value in
    [_timeout] it makes the same calls and returns the same bytes. *)
Lemma read_loop_ignores_timeout (fuel : nat) (to_read : Z) (stamp : Q)
    (received : list bytes) (self : socket) (w : world) (v : Q) :
  read_loop fuel to_read stamp received (with_timeout v self, w)
  = (fst (read_loop fuel to_read stamp received (self, w)),
     (with_timeout v
        (fst (snd (read_loop fuel to_read stamp received (self, w)))),
      snd (snd (read_loop fuel to_read stamp received (self, w))))).
Proof.
  revert to_read stamp received w.
  induction fuel as [|fuel IH]; intros to_read stamp received w; simpl;
    destruct (0 <? to_read); try reflexivity.
  unfold_methods. unfold_monad.
  destruct (iface_socket_available (_socknum self) w) as [[a| |] w1];
    try reflexivity.
  simpl. destruct (Z.min a MAX_PACKET =? 0); simpl.
  - rewrite time_monotonic_eq. simpl.
    destruct (Qgtb _ _); [reflexivity | apply IH].
  - rewrite time_monotonic_eq. simpl.
    destruct (iface_socket_read (_socknum self) _ _) as [[d| |] w2];
      try reflexivity.
    simpl. rewrite time_monotonic_eq. simpl.
    destruct (Qgtb _ _); [reflexivity | apply IH].
Qed.

(** [read(size)], [size] other than 0, is a reading of the clock, the loop
    and the end. *)
Lemma read_unfold (fuel : nat) (size : Z) (self : socket) (w : world) :
  size <> 0 ->
  read fuel size (self, w)
  = (received <- read_loop fuel (size - len (_buffer self))
                   (fst (monotonic (the_clock w))) [] ;;
     read_finish size received)
      (self,
       mk_world (_the_interface w) (snd (monotonic (the_clock w)))
         (trace w ++ [monotonic_])).
Proof.
  intros Hsize. unfold read.
  destruct (Z.eqb_spec size 0) as [|_]; [contradiction|].
  unfold bind at 1. unfold lift at 1. simpl. rewrite time_monotonic_eq.
  reflexivity.
Qed.

Lemma read_finish_ignores_timeout (size : Z) (received : list bytes)
    (self : socket) (w : world) (v : Q) :
  read_finish size received (with_timeout v self, w)
  = (fst (read_finish size received (self, w)),
     (with_timeout v (fst (snd (read_finish size received (self, w)))),
      snd (snd (read_finish size received (self, w))))).
Proof.
  unfold_methods. unfold_monad.
  destruct (len (_buffer self ++ join received) =? size); reflexivity.
Qed.

(** X24: [read(size)], [size] other than 0, is the same under every user
    timeout [v]: the same outcome, the same calls, and the same object but
    for [_timeout]. *)
Lemma read_ignores_timeout (fuel : nat) (size : Z) (self : socket)
    (w : world) (v : Q) :
  size <> 0 ->
  read fuel size (with_timeout v self, w)
  = (fst (read fuel size (self, w)),
     (with_timeout v (fst (snd (read fuel size (self, w)))),
      snd (snd (read fuel size (self, w))))).
Proof.
  intros Hsize. rewrite !read_unfold by exact Hsize.
  unfold bind. rewrite read_loop_ignores_timeout. simpl.
  destruct (read_loop fuel _ _ _ (self, _)) as [[rc| |] [s1 w1]]; simpl;
    try reflexivity.
  apply read_finish_ignores_timeout.
Qed.

(** The loop of [read(0)] takes what is queued, chunk by chunk. *)
Lemma read_all_loop_queued (socknum : Z) (w w' : world)
    (polls : list (Z * bytes)) :
  queued socknum w polls w' ->
  forall (fuel : nat) (self : socket),
    _socknum self = socknum ->
    (length polls < fuel)%nat ->
    read_all_loop fuel (self, w)
    = (Return tt,
       (with_buffer (_buffer self ++ concat (map snd polls)) self, w')).
Proof.
  induction 1 as [w w1 Hav | w w1 w2 w' a chunk polls Hav Hnz Hread Hq IH];
    intros fuel self Hsock Hfuel; subst socknum;
    (destruct fuel as [|fuel]; [simpl in Hfuel; lia|]);
    simpl; unfold_methods; unfold_monad; rewrite Hav; simpl.
  - rewrite app_nil_r. destruct self; reflexivity.
  - destruct (Z.eqb_spec (Z.min a MAX_PACKET) 0) as [E|_].
    { unfold MAX_PACKET in E. lia. }
    simpl. rewrite Hread. simpl.
    rewrite IH by (simpl in *; auto; lia).
    simpl. unfold with_buffer. simpl. rewrite <- app_assoc. reflexivity.
Qed.

Lemma queued_trace (socknum : Z) (w w' : world) (polls : list (Z * bytes)) :
  queued socknum w polls w' ->
  trace w' = trace w ++ drain_calls socknum polls.
Proof.
  induction 1 as [w w1 Hav | w w1 w2 w' a chunk polls Hav Hnz Hread Hq IH].
  - apply interface_call_trace in Hav. exact Hav.
  - apply interface_call_trace in Hav, Hread.
    rewrite IH, Hread, Hav. unfold drain_calls. simpl.
    rewrite <- !app_assoc. reflexivity.
Qed.

(** C4: [read(0)] polls until a poll reports zero.  When the polls report
    the nonzero counts of [polls] and then zero, it asks after each nonzero
    poll for that count capped at [MAX_PACKET = 4000], makes no other call
    to the interface, stops at the zero poll, returns what the buffer held
    followed by the chunks in the order they came, and leaves the buffer
    empty.  One unit of fuel per poll is enough. *)
Theorem read_zero_drains_queue
    (fuel : nat) (self : socket) (w w' : world) (polls : list (Z * bytes)) :
  queued (_socknum self) w polls w' ->
  (length polls < fuel)%nat ->
  read fuel 0 (self, w)
  = (Return (_buffer self ++ concat (map snd polls)),
     (with_buffer [] self, log gc_collect_ (log gc_collect_ w')))
  /\ trace w' = trace w ++ drain_calls (_socknum self) polls
  /\ MAX_PACKET = 4000.
Proof.
  intros Hq Hfuel. split; [|split; [exact (queued_trace _ _ _ _ Hq) | reflexivity]].
  unfold read. simpl. unfold bind at 1.
  rewrite (read_all_loop_queued _ _ _ _ Hq fuel self eq_refl Hfuel).
  unfold_monad. reflexivity.
Qed.

(** C6: [connect] empties the buffer after the interface's
    [socket_connect] has answered true, and only then: on a false answer it
    raises [RuntimeError] with the host among its arguments and the buffer
    is as it was. *)
Theorem connect_clears_buffer_on_success_only
    (host port : pyval) (conntype : option Z) (self : socket) (w w1 : world)
    (connected : bool) :
  let mode := match conntype with None => TCP_MODE | Some mode => mode end in
  iface_socket_connect (_socknum self) host port mode
    (log (print_ [PyStr "connecting..."]) w) = (Return connected, w1) ->
  connect (host, port) conntype (self, w)
  = if connected
    then (Return tt, (with_buffer [] self, w1))
    else (Raise (RuntimeError [PyStr "Failed to connect to host"; host]),
          (self, w1)).
Proof.
  intros mode Hconn. unfold_methods. unfold_monad.
  fold mode. unfold log in Hconn. rewrite Hconn.
  destruct connected; reflexivity.
Qed.

(** C8: [getaddrinfo] raises [RuntimeError] without calling the interface
    when [port] is not an [int]; for an [int] port it returns a list of one
    tuple [(AF_INET, socktype, proto, '', (ipaddr, port))], [ipaddr] being
    what the interface's [get_host_by_name] answers for [host]. *)
Theorem getaddrinfo_one_candidate
    (host port : pyval) (family socktype proto flags : Z) (w : world) :
  (isinstance_int port = false ->
   getaddrinfo host port family socktype proto flags w
   = (Raise (RuntimeError [PyStr "Port must be an integer"]), w))
  /\ (isinstance_int port = true ->
      forall (ipaddr : pyval) (w1 : world),
        iface_get_host_by_name host w = (Return ipaddr, w1) ->
        getaddrinfo host port family socktype proto flags w
        = (Return [(AF_INET, socktype, proto, EmptyString, (ipaddr, port))],
           w1)).
Proof.
  unfold getaddrinfo. split; intros Hport.
  - rewrite Hport. reflexivity.
  - intros ipaddr w1 Hname. rewrite Hport. simpl.
    unfold bind. rewrite Hname. reflexivity.
Qed.


End Properties.

(** ** Runs against the scripted device *)

Lemma readline_buffered_line_no_transport_witness :
  bytes_in CRLF request = true
  /\ exists line rest,
       readline 0 (with_timeout 2 (sock request 0), boot (quiet []))
       = (Return line,
          (with_timeout 2 (with_buffer rest (sock request 0)),
           mk_world (quiet []) (mk_stepper (0 + 1) 1)
             [monotonic_; gc_collect_])).
Proof.
  split; [reflexivity|].
  exact (readline_buffered_line_no_transport 0 (sock request 0)
           (boot (quiet [])) 2 eq_refl).
Defined.

Lemma readline_splits_at_first_CRLF_witness :
  bytes_in CRLF request = true
  /\ exists line rest,
       _buffer (sock request 0) = line ++ CRLF ++ rest
       /\ (forall l r, _buffer (sock request 0) = l ++ CRLF ++ r ->
            (length line <= length l)%nat)
       /\ readline_finish (sock request 0, boot (quiet []))
          = (Return line,
             (with_buffer rest (sock request 0),
              log gc_collect_ (boot (quiet []))))
       /\ readline 1 (sock request 0, boot (quiet []))
          = (Return line,
             (with_buffer rest (sock request 0),
              log gc_collect_ (snd (time_monotonic (boot (quiet [])))))).
Proof.
  split; [reflexivity|].
  exact (readline_splits_at_first_CRLF 1 (sock request 0) (boot (quiet []))
           eq_refl).
Defined.

(** The request line of the specification's example. *)
Example readline_request :
  readline 1 (sock request 0, boot (quiet []))
  = (Return (ascii_bytes "GET / "),
     (sock (ascii_bytes "Host: x") 0,
      mk_world (quiet []) (mk_stepper (0 + 1) 1) [monotonic_; gc_collect_])).
Proof. reflexivity. Qed.


(** [settimeout(2)], then a [readline()] that never sees a byte: the third
    poll comes more than 2 units after the call. *)
Example readline_after_settimeout :
  (settimeout 2 ;;; readline 5) (sock [] 0, boot (quiet []))
  = (Raise (RuntimeError [PyStr "Didn't receive full response, failing out"]),
     (sock [] 2,
      mk_world (quiet []) (mk_stepper (0 + 1 + 1 + 1 + 1) 1)
        [print_ [PyStr "setting timeout: "; PyFloat 2];
         monotonic_;
         socket_available_ 0; monotonic_;
         socket_available_ 0; monotonic_;
         socket_available_ 0; monotonic_;
         socket_close_ 0])).
Proof. reflexivity. Qed.

Lemma read_returns_head_of_buffer_witness :
  0 < 10
  /\ read 50 10 (sock (ascii_bytes "he") 0, boot (quiet [ascii_bytes "abc"]))
     = (Return (ascii_bytes "heabc"),
        (sock [] 0,
         log gc_collect_
           (snd (snd (read_loop 50 (10 - 2) 0 []
                        (sock (ascii_bytes "he") 0,
                         snd (time_monotonic
                                (boot (quiet [ascii_bytes "abc"]))))))))).
Proof.
  split; [reflexivity|].
  refine (proj1 (proj2 (proj2
            (read_returns_head_of_buffer 50 10 (sock (ascii_bytes "he") 0)
               (boot (quiet [ascii_bytes "abc"]))
               (snd (time_monotonic (boot (quiet [ascii_bytes "abc"]))))
               0 [ascii_bytes "abc"]
               (snd (read_loop 50 (10 - 2) 0 []
                       (sock (ascii_bytes "he") 0,
                        snd (time_monotonic
                               (boot (quiet [ascii_bytes "abc"]))))))
               _ _ _)) _)).
  - reflexivity.
  - reflexivity.
  - reflexivity.
  - intros H; vm_compute in H; discriminate H.
Defined.


(** Three bytes come, then nothing: [read(10)] returns the three bytes
    once the clock reads more than 8 past the chunk, and raises nothing. *)
Example read_ten_of_three :
  let r := read 50 10 (sock [] 0, boot (quiet [ascii_bytes "abc"])) in
  fst r = Return (ascii_bytes "abc")
  /\ fst (snd r) = sock [] 0
  /\ filter transport_call (trace (snd (snd r)))
     = socket_available_ 0 :: socket_read_ 0 3
       :: repeat (socket_available_ 0) 8.
Proof. vm_compute. repeat split. Qed.

Lemma read_zero_drains_queue_witness :
  (length [(3, ascii_bytes "abc"); (2, ascii_bytes "de")] < 3)%nat
  /\ read 3 0
       (sock (ascii_bytes "he") 0,
        boot (quiet [ascii_bytes "abc"; ascii_bytes "de"]))
     = (Return (ascii_bytes "heabcde"),
        (sock [] 0,
         mk_world (quiet []) (mk_stepper 0 1)
           [socket_available_ 0; socket_read_ 0 3;
            socket_available_ 0; socket_read_ 0 2;
            socket_available_ 0; gc_collect_; gc_collect_])).
Proof.
  split; [repeat constructor|].
  refine (proj1 (read_zero_drains_queue 3 (sock (ascii_bytes "he") 0)
                   (boot (quiet [ascii_bytes "abc"; ascii_bytes "de"]))
                   (mk_world (quiet []) (mk_stepper 0 1)
                      [socket_available_ 0; socket_read_ 0 3;
                       socket_available_ 0; socket_read_ 0 2;
                       socket_available_ 0])
                   [(3, ascii_bytes "abc"); (2, ascii_bytes "de")] _ _)).
  - eapply queued_chunk;
      [reflexivity | discriminate | reflexivity |].
    eapply queued_chunk;
      [reflexivity | discriminate | reflexivity |].
    apply queued_none. reflexivity.
  - repeat constructor.
Defined.

Lemma connect_clears_buffer_on_success_only_witness :
  connect (PyStr "example.com", PyInt 80) None
    (sock (ascii_bytes "stale") 0, boot unreachable)
  = (Raise (RuntimeError
              [PyStr "Failed to connect to host"; PyStr "example.com"]),
     (sock (ascii_bytes "stale") 0,
      mk_world unreachable (mk_stepper 0 1)
        [print_ [PyStr "connecting..."];
         socket_connect_ 0 (PyStr "example.com") (PyInt 80) 0])).
Proof.
  exact (connect_clears_buffer_on_success_only (PyStr "example.com")
           (PyInt 80) None (sock (ascii_bytes "stale") 0) (boot unreachable)
           (mk_world unreachable (mk_stepper 0 1)
              [print_ [PyStr "connecting..."];
               socket_connect_ 0 (PyStr "example.com") (PyInt 80) 0])
           false eq_refl).
Defined.

(** A connection that succeeds drops what was buffered. *)
Example connect_reachable :
  connect (PyStr "example.com", PyInt 80) None
    (sock (ascii_bytes "stale") 0, boot (quiet []))
  = (Return tt,
     (sock [] 0,
      mk_world (quiet []) (mk_stepper 0 1)
        [print_ [PyStr "connecting..."];
         socket_connect_ 0 (PyStr "example.com") (PyInt 80) 0])).
Proof. reflexivity. Qed.

Lemma read_exact_buffer_no_transport_witness :
  0 < 5
  /\ len (_buffer (sock (ascii_bytes "hello") 0)) = 5
  /\ read 0 5 (sock (ascii_bytes "hello") 0, boot (quiet [ascii_bytes "abc"]))
     = (Return (ascii_bytes "hello"),
        (sock [] 0,
         mk_world (quiet [ascii_bytes "abc"]) (mk_stepper (0 + 1) 1)
           [monotonic_; gc_collect_])).
Proof.
  split; [reflexivity|]. split; [reflexivity|].
  exact (read_exact_buffer_no_transport 0 5 (sock (ascii_bytes "hello") 0)
           (boot (quiet [ascii_bytes "abc"])) eq_refl eq_refl).
Defined.

Lemma getaddrinfo_one_candidate_witness :
  isinstance_int (PyStr "80") = false
  /\ isinstance_int (PyInt 80) = true
  /\ getaddrinfo (PyStr "example.com") (PyStr "80") 0 0 0 0 (boot (quiet []))
     = (Raise (RuntimeError [PyStr "Port must be an integer"]),
        boot (quiet []))
  /\ getaddrinfo (PyStr "example.com") (PyInt 80) 0 0 0 0 (boot (quiet []))
     = (Return [(AF_INET, 0, 0, EmptyString,
                 (PyBytes [x0a; x00; x00; x01], PyInt 80))],
        mk_world (quiet []) (mk_stepper 0 1)
          [get_host_by_name_ (PyStr "example.com")]).
Proof.
  split; [reflexivity|]. split; [reflexivity|]. split.
  - exact (proj1 (getaddrinfo_one_candidate (PyStr "example.com")
                    (PyStr "80") 0 0 0 0 (boot (quiet []))) eq_refl).
  - exact (proj2 (getaddrinfo_one_candidate (PyStr "example.com")
                    (PyInt 80) 0 0 0 0 (boot (quiet []))) eq_refl
             (PyBytes [x0a; x00; x00; x01])
             (mk_world (quiet []) (mk_stepper 0 1)
                [get_host_by_name_ (PyStr "example.com")])
             eq_refl).
Defined.


(** With no socket number left the constructor fails with what
    [get_socket] raises. *)
Example socket_init_exhausted :
  __init__ AF_INET SOCK_STREAM 0 PyNone
    (boot (mk_device [] [] [] true PyNone))
  = (Raise (RuntimeError [PyStr "No sockets available"]),
     mk_world (mk_device [] [] [] true PyNone) (mk_stepper 0 1)
       [get_socket_]).
Proof. reflexivity. Qed.



(** ** What the reading methods keep and what they call *)

Section Conservation.

Context {I C : Type} {interface : Interface I} {clock : Clock C}.

Local Abbreviation world := (world I C).
Local Abbreviation state := (socket * world)%type.

Variable ok : Z -> call -> bool.
Hypothesis ok_reading :
  forall (s : Z) (c : call), reading_call s c = true -> ok s c = true.

Lemma with_buffer_same (self : socket) :
  with_buffer (_buffer self ++ []) self = self.
Proof. destruct self; unfold with_buffer; simpl; rewrite app_nil_r; reflexivity. Qed.

(** A computation that leaves the state alone grows nothing. *)
Lemma grows_pure {A : Type} (post : A -> Prop) (m : M state A) :
  (forall s, snd (m s) = s) ->
  (forall s a, fst (m s) = Return a -> post a) ->
  grows (I:=I) (C:=C) ok post m.
Proof.
  intros Hs Hp self w. exists [], []. rewrite Hs. simpl.
  rewrite with_buffer_same, app_nil_r. repeat split; eauto.
Qed.

Lemma grows_ret {A : Type} (post : A -> Prop) (a : A) :
  post a -> grows (I:=I) (C:=C) ok post (ret a).
Proof.
  intros H. apply grows_pure; [reflexivity|].
  intros s b E; inversion E; subst; exact H.
Qed.

Lemma grows_raise {A : Type} (post : A -> Prop) (e : exn) :
  grows (I:=I) (C:=C) ok post (raise e).
Proof. apply grows_pure; [reflexivity | discriminate]. Qed.

Lemma grows_diverge {A : Type} (post : A -> Prop) :
  grows (I:=I) (C:=C) ok post diverge.
Proof. apply grows_pure; [reflexivity | discriminate]. Qed.

Lemma grows_get_self : grows (I:=I) (C:=C) ok (fun _ => True) get_self.
Proof. apply grows_pure; [reflexivity | trivial]. Qed.

Lemma grows_bind {A B : Type} (mid : A -> Prop) (post : B -> Prop)
    (m : M state A) (k : A -> M state B) :
  grows (I:=I) (C:=C) ok mid m ->
  (forall a, mid a -> grows (I:=I) (C:=C) ok post (k a)) ->
  grows (I:=I) (C:=C) ok post (bind m k).
Proof.
  intros Hm Hk self w.
  destruct (Hm self w) as (e1 & n1 & Hself & Htr & Hok & Hmid).
  unfold bind.
  destruct (m (self, w)) as [[a|e|] [self1 w1]]; simpl in *.
  - destruct (Hk a (Hmid a eq_refl) self1 w1)
      as (e2 & n2 & Hself2 & Htr2 & Hok2 & Hpost).
    exists (e1 ++ e2), (n1 ++ n2). subst self1. simpl in *.
    repeat split.
    + rewrite Hself2. unfold with_buffer. simpl.
      rewrite app_assoc. reflexivity.
    + rewrite Htr2, Htr, app_assoc. reflexivity.
    + rewrite forallb_app, Hok, Hok2. reflexivity.
    + exact Hpost.
  - exists e1, n1. repeat split; auto. discriminate.
  - exists e1, n1. repeat split; auto. discriminate.
Qed.

(** A call that leaves the module and is accepted for every socket. *)
Lemma grows_lift {A : Type} (m : M world A) (c : call) :
  (forall w, trace (snd (m w)) = trace w ++ [c]) ->
  (forall s, ok s c = true) ->
  grows (I:=I) (C:=C) ok (fun _ => True) (lift m).
Proof.
  intros Htr Hc self w. exists [], [c]. unfold lift. simpl.
  specialize (Htr w). destruct (m w) as [o w1]. simpl in *.
  rewrite with_buffer_same, Hc. repeat split; auto.
Qed.

Lemma grows_time : grows (I:=I) (C:=C) ok (fun _ => True) (lift time_monotonic).
Proof.
  apply grows_lift with (c := monotonic_).
  - intros w. rewrite time_monotonic_eq. reflexivity.
  - intros s. apply ok_reading. reflexivity.
Qed.

Lemma grows_print (args : list pyval) :
  grows (I:=I) (C:=C) ok (fun _ => True) (lift (print args)).
Proof.
  apply grows_lift with (c := print_ args).
  - reflexivity.
  - intros s. apply ok_reading. reflexivity.
Qed.

Lemma grows_gc_collect : grows (I:=I) (C:=C) ok (fun _ => True) (lift gc_collect).
Proof.
  apply grows_lift with (c := gc_collect_).
  - reflexivity.
  - intros s. apply ok_reading. reflexivity.
Qed.

Lemma interface_call_trace_snd {A : Type} (c : call)
    (op : I -> answer A * I) (w : world) :
  trace (snd (interface_call c op w)) = trace w ++ [c].
Proof.
  destruct (interface_call c op w) as [o w1] eqn:E.
  exact (interface_call_trace c op w w1 o E).
Qed.

(** The poll never yields more than [MAX_PACKET]. *)
Lemma grows_poll_avail : grows (I:=I) (C:=C) ok (fun avail => avail <= MAX_PACKET) poll_avail.
Proof.
  intros self w. exists [], [socket_available_ (_socknum self)].
  unfold poll_avail, iface_socket_available, bind, get_self, lift, ret.
  simpl.
  pose proof (interface_call_trace_snd (socket_available_ (_socknum self))
                (socket_available (_socknum self)) w) as Htr.
  destruct (interface_call (socket_available_ (_socknum self))
              (socket_available (_socknum self)) w) as [[a|e|] w1];
    simpl in *; rewrite with_buffer_same;
    (repeat split; [exact Htr | | ]).
  - rewrite ok_reading; [reflexivity|]. simpl. rewrite Z.eqb_refl. reflexivity.
  - intros b E. inversion E. apply Z.le_min_r.
  - rewrite ok_reading; [reflexivity|]. simpl. rewrite Z.eqb_refl. reflexivity.
  - discriminate.
  - rewrite ok_reading; [reflexivity|]. simpl. rewrite Z.eqb_refl. reflexivity.
  - discriminate.
Qed.

Lemma grows_transport_read (size : Z) :
  size <= MAX_PACKET ->
  grows (I:=I) (C:=C) ok (fun _ => True) (transport_read size).
Proof.
  intros Hsize self w. exists [], [socket_read_ (_socknum self) size].
  unfold transport_read, iface_socket_read, bind, get_self, lift. simpl.
  pose proof (interface_call_trace_snd (socket_read_ (_socknum self) size)
                (socket_read (_socknum self) size) w) as Htr.
  destruct (interface_call (socket_read_ (_socknum self) size)
              (socket_read (_socknum self) size) w) as [o w1].
  simpl in *. rewrite with_buffer_same. repeat split; auto.
  rewrite ok_reading; [reflexivity|].
  unfold reading_call. rewrite Z.eqb_refl. apply Z.leb_le. exact Hsize.
Qed.

Lemma grows_extend_buffer (data : bytes) :
  grows (I:=I) (C:=C) ok (fun _ => True) (extend_buffer data).
Proof.
  intros self w. exists data, []. unfold extend_buffer, bind, get_self,
    set_buffer. simpl. rewrite app_nil_r. repeat split; auto.
Qed.

(** The loop of [read(0)]. *)
Lemma grows_read_all_loop (fuel : nat) :
  grows (I:=I) (C:=C) ok (fun _ => True) (read_all_loop fuel).
Proof.
  induction fuel as [|fuel IH]; simpl.
  - apply grows_diverge.
  - eapply grows_bind; [apply grows_poll_avail|]. intros avail Havail.
    destruct (avail =? 0); simpl.
    + apply grows_ret; trivial.
    + eapply grows_bind; [apply grows_transport_read; exact Havail|].
      intros data _.
      eapply grows_bind; [apply grows_extend_buffer|]. intros _ _. exact IH.
Qed.

(** The loop of [read(size)]. *)
Lemma grows_read_loop (fuel : nat) (to_read : Z) (stamp : Q)
    (received : list bytes) :
  grows (I:=I) (C:=C) ok (fun _ => True) (read_loop fuel to_read stamp received).
Proof.
  revert to_read stamp received.
  induction fuel as [|fuel IH]; intros to_read stamp received; simpl;
    destruct (0 <? to_read); try (apply grows_ret; trivial).
  - apply grows_diverge.
  - eapply grows_bind; [apply grows_poll_avail|]. intros avail Havail.
    eapply grows_bind with (mid := fun _ => True).
    + destruct (avail =? 0); simpl; [apply grows_ret; trivial|].
      eapply grows_bind; [apply grows_time|]. intros stamp' _.
      eapply grows_bind.
      * apply grows_transport_read.
        etransitivity; [apply Z.le_min_r | exact Havail].
      * intros recv _.
        eapply grows_bind; [apply grows_gc_collect|]. intros _ _.
        apply grows_ret; trivial.
    + intros [[to_read' stamp'] received'] _.
      eapply grows_bind with (mid := fun _ => True).
      * change (0 <? read_timeout) with true. cbv iota.
        eapply grows_bind; [apply grows_time|]. intros now _.
        apply grows_ret; trivial.
      * intros [|] _; [|apply IH].
        eapply grows_bind; [apply grows_print|]. intros _ _.
        apply grows_ret; trivial.
Qed.

End Conservation.

Lemma readline_call_reading (s : Z) (c : call) :
  reading_call s c = true -> readline_call s c = true.
Proof. intros H. unfold readline_call. rewrite H. reflexivity. Qed.

Section ReadingMethods.

Context {I C : Type} {interface : Interface I} {clock : Clock C}.

Local Abbreviation world := (world I C).
Local Abbreviation state := (socket * world)%type.

(** What [grows] says of one run. *)
Lemma grows_run {A : Type} (ok : Z -> call -> bool) (post : A -> Prop)
    (m : M state A) (self self1 : socket) (w w1 : world) (o : outcome A) :
  grows ok post m ->
  m (self, w) = (o, (self1, w1)) ->
  exists (extra : bytes) (new : list call),
    self1 = with_buffer (_buffer self ++ extra) self
    /\ trace w1 = trace w ++ new
    /\ forallb (ok (_socknum self)) new = true
    /\ forall a : A, o = Return a -> post a.
Proof.
  intros Hg Hm. destruct (Hg self w) as (extra & new & H1 & H2 & H3 & H4).
  rewrite Hm in H1, H2, H4. simpl in *. exists extra, new. auto.
Qed.

Lemma grows_close : grows (I:=I) (C:=C) readline_call (fun _ => True) close.
Proof.
  intros self w. exists [], [socket_close_ (_socknum self)].
  unfold close, iface_socket_close, bind, get_self, lift. simpl.
  pose proof (interface_call_trace_snd (socket_close_ (_socknum self))
                (socket_close (_socknum self)) w) as Htr.
  destruct (interface_call (socket_close_ (_socknum self))
              (socket_close (_socknum self)) w) as [o w1].
  simpl in *. rewrite with_buffer_same. repeat split; auto.
  unfold readline_call. simpl. rewrite Z.eqb_refl. reflexivity.
Qed.

(** The loop of [readline]. *)
Lemma grows_readline_loop (fuel : nat) (stamp : Q) :
  grows (I:=I) (C:=C) readline_call (fun _ => True)
    (readline_loop fuel stamp).
Proof.
  pose proof readline_call_reading as R.
  induction fuel as [|fuel IH]; simpl;
    (eapply grows_bind; [apply grows_get_self|]); intros self _;
    destruct (bytes_in CRLF (_buffer self)); simpl;
    try (apply grows_ret; trivial).
  - apply grows_diverge.
  - eapply grows_bind; [apply grows_poll_avail; exact R|].
    intros avail Havail.
    eapply grows_bind with (mid := fun _ => True).
    { destruct (avail =? 0); simpl;
        [apply grows_ret; trivial | apply grows_print; exact R]. }
    intros _ _.
    eapply grows_bind with (mid := fun _ => True); [|intros _ _; exact IH].
    destruct (avail =? 0); simpl.
    + eapply grows_bind; [apply grows_get_self|]. intros self' _.
      destruct (Qgtb (_timeout self') 0); [|apply grows_ret; trivial].
      eapply grows_bind; [apply grows_time; exact R|]. intros now _.
      destruct (Qgtb (now - stamp) (_timeout self'));
        [|apply grows_ret; trivial].
      eapply grows_bind; [apply grows_close|]. intros _ _.
      apply grows_raise.
    + eapply grows_bind;
        [apply grows_transport_read; [exact R | exact Havail]|].
      intros data _. apply grows_extend_buffer.
Qed.



(** X3: Whatever happens, the calls of [readline] are polls, reads of at most
    [MAX_PACKET] bytes and closes of its own socket number, readings of the
    clock, [print] and [gc.collect]: it never writes, connects, resolves,
    takes a socket number or touches another socket. *)
Theorem readline_calls_own_socket (fuel : nat) (self : socket) (w : world) :
  exists new : list call,
    trace (snd (snd (readline fuel (self, w)))) = trace w ++ new
    /\ forallb (readline_call (_socknum self)) new = true.
Proof.
  unfold readline, bind at 1, lift at 1. simpl. rewrite time_monotonic_eq.
  unfold bind at 1.
  destruct (readline_loop fuel _ (self, _)) as [[[]|e|] [self1 w1]] eqn:Hloop;
    destruct (grows_run _ _ _ _ _ _ _ _ (grows_readline_loop fuel _) Hloop)
      as (extra & new & Hself & Htr & Hok & _); simpl in Htr.
  - pose proof (readline_loop_exit _ _ _ _ Hloop) as Hin. simpl in Hin.
    destruct (split1_first CRLF (_buffer self1) Hin) as (l & r & Hs & _).
    unfold readline_finish, bind, get_self, set_buffer, lift, gc_collect, ret.
    simpl. rewrite Hs. simpl.
    exists (monotonic_ :: new ++ [gc_collect_]). split.
    + rewrite Htr, <- !app_assoc. reflexivity.
    + simpl. rewrite forallb_app, Hok. reflexivity.
  - exists (monotonic_ :: new). split.
    + simpl. rewrite Htr, <- app_assoc. reflexivity.
    + simpl. exact Hok.
  - exists (monotonic_ :: new). split.
    + simpl. rewrite Htr, <- app_assoc. reflexivity.
    + simpl. exact Hok.
Qed.

End ReadingMethods.

Section Reads.

Context {I C : Type} {interface : Interface I} {clock : Clock C}.

Local Abbreviation world := (world I C).
Local Abbreviation state := (socket * world)%type.

Lemma read_finish_returns (size : Z) (received : list bytes) (s : state) :
  exists r s', read_finish size received s = (Return r, s').
Proof.
  unfold read_finish, extend_buffer, bind, get_self, set_buffer, lift,
    gc_collect, ret. simpl.
  destruct (len (_buffer (fst s) ++ join received) =? size);
    eexists; eexists; reflexivity.
Qed.


(** X5: When [read(size)], [size] other than 0, does not return (the interface
    raises, or the loop is still running), the object is as it was at the
    call: the chunks received before that are not in the buffer. *)
Theorem read_failure_leaves_buffer
    (fuel : nat) (size : Z) (self : socket) (w : world) (o : outcome bytes)
    (s' : state) :
  size <> 0 ->
  read fuel size (self, w) = (o, s') ->
  (forall r, o <> Return r) ->
  fst s' = self.
Proof.
  intros Hsize. rewrite read_unfold by exact Hsize. unfold bind.
  pose proof (read_loop_keeps_self fuel (size - len (_buffer self))
                (fst (monotonic (the_clock w))) [] self
                (mk_world (_the_interface w) (snd (monotonic (the_clock w)))
                   (trace w ++ [monotonic_]))) as K.
  destruct (read_loop fuel _ _ _ (self, _)) as [[rc|e|] [self1 w1]] eqn:Hloop;
    simpl in K; subst self1.
  - destruct (read_finish_returns size rc (self, w1)) as (r & s1 & Hfin).
    rewrite Hfin. intros E Hno. inversion E; subst o.
    exfalso. exact (Hno r eq_refl).
  - intros E _. inversion E; reflexivity.
  - intros E _. inversion E; reflexivity.
Qed.



(** X6: Whatever happens, the calls of [read] are polls and reads of its own
    socket number, no read asking for more than [MAX_PACKET] bytes,
    readings of the clock, [print] and [gc.collect]: it never closes,
    writes, connects or touches another socket. *)
Theorem read_calls_own_socket
    (fuel : nat) (size : Z) (self : socket) (w : world) :
  exists new : list call,
    trace (snd (snd (read fuel size (self, w)))) = trace w ++ new
    /\ forallb (reading_call (_socknum self)) new = true.
Proof.
  destruct (Z.eq_dec size 0) as [->|Hsize].
  - unfold read. simpl. unfold bind at 1.
    destruct (read_all_loop fuel (self, w)) as [[[]|e|] [self1 w1]] eqn:Hloop;
      destruct (grows_run _ _ _ _ _ _ _ _
                  (grows_read_all_loop reading_call (fun _ _ H => H) fuel)
                  Hloop)
        as (extra & new & Hself & Htr & Hok & _).
    + unfold bind, get_self, set_buffer, lift, gc_collect, ret, log. simpl.
      exists (new ++ [gc_collect_; gc_collect_]). split.
      * rewrite Htr, <- !app_assoc. reflexivity.
      * rewrite forallb_app, Hok. reflexivity.
    + exists new. simpl. auto.
    + exists new. simpl. auto.
  - rewrite read_unfold by exact Hsize. unfold bind.
    destruct (read_loop fuel _ _ _ (self, _)) as [[rc|e|] [self1 w1]]
      eqn:Hloop;
      destruct (grows_run _ _ _ _ _ _ _ _
                  (grows_read_loop reading_call (fun _ _ H => H) fuel _ _ _)
                  Hloop)
        as (extra & new & Hself & Htr & Hok & _); simpl in Htr.
    + unfold read_finish, extend_buffer, bind, get_self, set_buffer, lift,
        gc_collect, ret, log. simpl.
      exists (monotonic_ :: new ++ [gc_collect_]). split.
      * destruct (len _ =? size); simpl;
          rewrite Htr, <- !app_assoc; reflexivity.
      * simpl. rewrite forallb_app, Hok. reflexivity.
    + exists (monotonic_ :: new). simpl. split; [|exact Hok].
      rewrite Htr, <- app_assoc. reflexivity.
    + exists (monotonic_ :: new). simpl. split; [|exact Hok].
      rewrite Htr, <- app_assoc. reflexivity.
Qed.

End Reads.

(** ** One turn of the loops *)

Section Turns.

Context {I C : Type} {interface : Interface I} {clock : Clock C}.

Local Abbreviation world := (world I C).
Local Abbreviation state := (socket * world)%type.

Ltac run_turn :=
  simpl;
  unfold poll_avail, transport_read, extend_buffer, close, bind, ret, raise,
    lift, get_self, set_buffer, print, gc_collect, log;
  simpl.

Lemma min_MAX_PACKET_nonzero (available : Z) :
  available <> 0 -> (Z.min available MAX_PACKET =? 0) = false.
Proof.
  intros H. apply Z.eqb_neq. unfold MAX_PACKET. lia.
Qed.

(** The turn of the loop of [readline] that finds bytes. *)
Lemma readline_loop_turn_chunk
    (fuel : nat) (stamp : Q) (self : socket) (w w1 w2 : world)
    (available : Z) (data : bytes) :
  bytes_in CRLF (_buffer self) = false ->
  iface_socket_available (_socknum self) w = (Return available, w1) ->
  available <> 0 ->
  iface_socket_read (_socknum self) (Z.min available MAX_PACKET)
    (log (print_ [PyStr "avail: "; PyInt (Z.min available MAX_PACKET)]) w1)
  = (Return data, w2) ->
  readline_loop (S fuel) stamp (self, w)
  = readline_loop fuel stamp (with_buffer (_buffer self ++ data) self, w2).
Proof.
  intros Hin Hav Hnz Hread. run_turn. rewrite Hin. simpl. rewrite Hav. simpl.
  rewrite (min_MAX_PACKET_nonzero _ Hnz). simpl.
  unfold log in Hread. rewrite Hread. reflexivity.
Qed.

(** X9: When a poll reports bytes, [readline] reads them (at most [MAX_PACKET])
    into the buffer and polls again; it does not read the clock, so bytes
    that keep coming keep it from timing out, however late it is: the turn
    is the same for every [stamp] and every timeout [v], and the trace
    gains the poll, the [print] and the read only. *)
Theorem readline_chunk_skips_timeout
    (fuel : nat) (stamp : Q) (self : socket) (w w1 w2 : world)
    (available : Z) (data : bytes) (v : Q) :
  bytes_in CRLF (_buffer self) = false ->
  iface_socket_available (_socknum self) w = (Return available, w1) ->
  available <> 0 ->
  iface_socket_read (_socknum self) (Z.min available MAX_PACKET)
    (log (print_ [PyStr "avail: "; PyInt (Z.min available MAX_PACKET)]) w1)
  = (Return data, w2) ->
  readline_loop (S fuel) stamp (with_timeout v self, w)
  = readline_loop fuel stamp
      (with_timeout v (with_buffer (_buffer self ++ data) self), w2)
  /\ trace w2
     = trace w ++ [socket_available_ (_socknum self);
                   print_ [PyStr "avail: ";
                           PyInt (Z.min available MAX_PACKET)];
                   socket_read_ (_socknum self)
                     (Z.min available MAX_PACKET)].
Proof.
  intros Hin Hav Hnz Hread. split.
  - exact (readline_loop_turn_chunk fuel stamp (with_timeout v self) w w1 w2
             available data Hin Hav Hnz Hread).
  - apply interface_call_trace in Hav, Hread. simpl in Hread.
    rewrite Hread, Hav, <- !app_assoc. reflexivity.
Qed.

(** X10: With a positive timeout that has not run out (the clock reads at most
    the timeout past [stamp], the bound included), an empty poll makes
    [readline] poll again: the socket is not closed. *)
Theorem readline_waits_within_timeout
    (fuel : nat) (stamp now : Q) (self : socket) (w w1 w2 : world) :
  bytes_in CRLF (_buffer self) = false ->
  (0 < _timeout self)%Q ->
  iface_socket_available (_socknum self) w = (Return 0, w1) ->
  time_monotonic w1 = (Return now, w2) ->
  (now - stamp <= _timeout self)%Q ->
  readline_loop (S fuel) stamp (self, w) = readline_loop fuel stamp (self, w2).
Proof.
  intros Hin Hpos Hav Hclock Hearly. run_turn.
  rewrite Hin. simpl. rewrite Hav. simpl.
  rewrite (Qgtb_true _ _ Hpos). simpl. rewrite Hclock.
  rewrite (Qgtb_false _ _ Hearly). reflexivity.
Qed.

(** X11: With a timeout that is zero or negative, an empty poll makes
    [readline] poll again without reading the clock: it blocks until a line
    is there. *)
Theorem readline_blocks_without_timeout
    (fuel : nat) (stamp : Q) (self : socket) (w w1 : world) :
  bytes_in CRLF (_buffer self) = false ->
  (_timeout self <= 0)%Q ->
  iface_socket_available (_socknum self) w = (Return 0, w1) ->
  readline_loop (S fuel) stamp (self, w) = readline_loop fuel stamp (self, w1).
Proof.
  intros Hin Hnone Hav. run_turn.
  rewrite Hin. simpl. rewrite Hav. simpl.
  rewrite (Qgtb_false _ _ Hnone). reflexivity.
Qed.

(** X13: An empty poll within the 8 units (the bound included) makes
    [read(size)] poll again with the same [stamp]. *)
Theorem read_loop_idle_within_bound
    (fuel : nat) (to_read : Z) (stamp now : Q) (received : list bytes)
    (self : socket) (w w1 w2 : world) :
  0 < to_read ->
  iface_socket_available (_socknum self) w = (Return 0, w1) ->
  time_monotonic w1 = (Return now, w2) ->
  (now - stamp <= 8)%Q ->
  read_loop (S fuel) to_read stamp received (self, w)
  = read_loop fuel to_read stamp received (self, w2).
Proof.
  intros Hto Hav Hclock Hearly. simpl.
  destruct (Z.ltb_spec 0 to_read); [|lia].
  run_turn. rewrite Hav. simpl. rewrite Hclock. simpl.
  change (inject_Z read_timeout) with 8%Q.
  rewrite (Qgtb_false _ _ Hearly). reflexivity.
Qed.


End Turns.

(** ** Whole calls *)

Section Calls.

Context {I C : Type} {interface : Interface I} {clock : Clock C}.

Local Abbreviation world := (world I C).
Local Abbreviation state := (socket * world)%type.

(** X15: A buffer that already holds [size] bytes or more serves [read(size)]
    by itself: the first [size] bytes are returned, the rest stays, and the
    interface is not called. *)
Theorem read_served_from_buffer
    (fuel : nat) (size : Z) (self : socket) (w : world) :
  0 < size ->
  size <= len (_buffer self) ->
  read fuel size (self, w)
  = (Return (firstn (Z.to_nat size) (_buffer self)),
     (with_buffer (skipn (Z.to_nat size) (_buffer self)) self,
      mk_world (_the_interface w) (snd (monotonic (the_clock w)))
        (trace w ++ [monotonic_; gc_collect_]))).
Proof.
  intros Hpos Hlen. rewrite read_unfold by lia. unfold bind.
  rewrite read_loop_done by lia.
  rewrite read_finish_eq by exact Hpos.
  unfold join, log. simpl. rewrite app_nil_r, <- app_assoc. reflexivity.
Qed.

(** X16: A negative [size] is taken as a slice bound: [read(size)] calls nothing
    and returns the buffer without its last [-size] bytes, which stay in
    the buffer. *)
Theorem read_negative_size
    (fuel : nat) (size : Z) (self : socket) (w : world) :
  size < 0 ->
  let keep := (length (_buffer self) - Z.to_nat (- size))%nat in
  read fuel size (self, w)
  = (Return (firstn keep (_buffer self)),
     (with_buffer (skipn keep (_buffer self)) self,
      mk_world (_the_interface w) (snd (monotonic (the_clock w)))
        (trace w ++ [monotonic_; gc_collect_]))).
Proof.
  intros Hneg keep. rewrite read_unfold by lia. unfold bind.
  rewrite read_loop_done by (unfold len; lia).
  unfold read_finish, extend_buffer, bind, get_self, set_buffer, lift,
    gc_collect, ret, log, join. simpl. rewrite app_nil_r.
  destruct (Z.eqb_spec (len (_buffer self)) size) as [E|_].
  { unfold len in E. lia. }
  simpl. unfold slice_to, slice_from, slice_bound.
  destruct (Z.ltb_spec size 0); [|lia].
  replace (Z.to_nat (Z.max 0 (Z.of_nat (length (_buffer self)) + size)))
    with keep by (unfold keep; lia).
  rewrite <- app_assoc. reflexivity.
Qed.


(** X18: One chunk that completes a line ends [readline]: it returns what
    precedes the first CRLF of the buffered bytes followed by the chunk (a
    CRLF may lie across the two) and keeps what follows it. *)
Theorem readline_after_one_chunk
    (fuel : nat) (self : socket) (w w1 w2 : world) (available : Z)
    (data : bytes) :
  bytes_in CRLF (_buffer self) = false ->
  iface_socket_available (_socknum self) (snd (time_monotonic w))
  = (Return available, w1) ->
  available <> 0 ->
  iface_socket_read (_socknum self) (Z.min available MAX_PACKET)
    (log (print_ [PyStr "avail: "; PyInt (Z.min available MAX_PACKET)]) w1)
  = (Return data, w2) ->
  bytes_in CRLF (_buffer self ++ data) = true ->
  exists line rest,
    _buffer self ++ data = line ++ CRLF ++ rest
    /\ (forall l r, _buffer self ++ data = l ++ CRLF ++ r ->
         (length line <= length l)%nat)
    /\ readline (S fuel) (self, w)
       = (Return line, (with_buffer rest self, log gc_collect_ w2)).
Proof.
  intros Hin Hav Hnz Hread Hline.
  destruct (split1_first CRLF _ Hline) as (l & r & Hs & Hb & Hmin).
  exists l, r. repeat split; auto.
  rewrite time_monotonic_eq in Hav. cbn [snd] in Hav.
  unfold readline. unfold bind at 1. unfold lift at 1. cbn [fst snd].
  rewrite time_monotonic_eq.
  unfold bind at 1.
  rewrite (readline_loop_turn_chunk fuel _ self _ w1 w2 available data
             Hin Hav Hnz Hread).
  rewrite readline_loop_done by exact Hline.
  unfold readline_finish, bind, get_self, set_buffer, lift, gc_collect, ret.
  simpl. rewrite Hs. reflexivity.
Qed.

(** X19: [close] does not disable the object: a line that is buffered is still
    returned by a [readline] after it, and the close is the only call to
    the interface. *)
Theorem close_then_readline_buffered
    (fuel : nat) (self : socket) (w w1 : world) :
  bytes_in CRLF (_buffer self) = true ->
  iface_socket_close (_socknum self) w = (Return tt, w1) ->
  exists line rest,
    _buffer self = line ++ CRLF ++ rest
    /\ (close ;;; readline fuel) (self, w)
       = (Return line,
          (with_buffer rest self,
           mk_world (_the_interface w1) (snd (monotonic (the_clock w1)))
             (trace w ++ [socket_close_ (_socknum self); monotonic_;
                          gc_collect_]))).
Proof.
  intros Hin Hclose.
  destruct (split1_first CRLF _ Hin) as (l & r & Hs & Hb & _).
  exists l, r. split; [exact Hb|].
  unfold bind at 1. unfold close, bind at 1, get_self at 1, lift at 1. simpl.
  rewrite Hclose.
  unfold readline, bind at 1, lift at 1. simpl. rewrite time_monotonic_eq.
  unfold bind at 1. rewrite readline_loop_done by exact Hin.
  unfold readline_finish, bind, get_self, set_buffer, lift, gc_collect, ret,
    log. simpl. rewrite Hs. simpl.
  apply interface_call_trace in Hclose. rewrite Hclose, <- !app_assoc.
  reflexivity.
Qed.


(** X21: [write] hands the data, whole, to one [socket_write] of its own socket
    number, makes no other call to the interface and, whatever the
    interface does, leaves the object as it was. *)
Theorem write_forwards_whole (data : bytes) (self : socket) (w : world) :
  fst (snd (write data (self, w))) = self
  /\ exists rest : list call,
       trace (snd (snd (write data (self, w))))
       = trace w ++ socket_write_ (_socknum self) data :: rest
       /\ existsb transport_call rest = false.
Proof.
  unfold write, iface_socket_write, bind, get_self, lift, gc_collect, log.
  simpl.
  pose proof (interface_call_trace_snd (socket_write_ (_socknum self) data)
                (socket_write (_socknum self) data) w) as Htr.
  destruct (interface_call (socket_write_ (_socknum self) data)
              (socket_write (_socknum self) data) w) as [[[]|e|] w1];
    simpl in *; (split; [reflexivity|]).
  - exists [gc_collect_]. rewrite Htr, <- app_assoc. split; reflexivity.
  - exists []. rewrite Htr. split; reflexivity.
  - exists []. rewrite Htr. split; reflexivity.
Qed.

(** X22: The constructor checks the family before the type, and both before it
    asks for a socket number; what [get_socket] raises comes out of the
    constructor, and no object is made. *)
Theorem socket_init_failures
    (family type proto : Z) (fileno : pyval) (w : world) :
  (family <> AF_INET ->
   __init__ family type proto fileno w
   = (Raise (RuntimeError [PyStr "Only AF_INET family supported"]), w))
  /\ (family = AF_INET -> type <> SOCK_STREAM ->
      __init__ family type proto fileno w
      = (Raise (RuntimeError [PyStr "Only SOCK_STREAM type supported"]), w))
  /\ (family = AF_INET -> type = SOCK_STREAM ->
      forall (e : exn) (w1 : world),
        iface_get_socket w = (Raise e, w1) ->
        __init__ family type proto fileno w = (Raise e, w1)).
Proof.
  unfold __init__. repeat split.
  - intros Hf. destruct (Z.eqb_spec family AF_INET); [contradiction|].
    reflexivity.
  - intros -> Ht. simpl.
    destruct (Z.eqb_spec type SOCK_STREAM); [contradiction|]. reflexivity.
  - intros -> -> e w1 Hget. simpl. unfold bind. rewrite Hget. reflexivity.
Qed.

(** X23: When the interface's [socket_connect] raises, [connect] raises the
    same and the buffer is as it was. *)
Theorem connect_propagates_transport_error
    (host port : pyval) (conntype : option Z) (self : socket) (w w1 : world)
    (e : exn) :
  iface_socket_connect (_socknum self) host port
    (match conntype with None => TCP_MODE | Some mode => mode end)
    (log (print_ [PyStr "connecting..."]) w) = (Raise e, w1) ->
  connect (host, port) conntype (self, w) = (Raise e, (self, w1)).
Proof.
  set (mode := match conntype with None => TCP_MODE | Some m => m end).
  intros Hconn. unfold connect, bind, lift, print, get_self, log. simpl.
  fold mode. unfold log in Hconn. rewrite Hconn. reflexivity.
Qed.

End Calls.

(** ** More runs against the scripted devices *)




Lemma read_failure_leaves_buffer_witness :
  10 <> 0
  /\ fst (read 50 10
            (sock (ascii_bytes "he") 0,
             boot_flaky (quiet [ascii_bytes "abc"; ascii_bytes "de"]) 1))
     = Raise (RuntimeError [PyStr "ESP32 not responding"])
  /\ fst (snd (read 50 10
                 (sock (ascii_bytes "he") 0,
                  boot_flaky (quiet [ascii_bytes "abc"; ascii_bytes "de"]) 1)))
     = sock (ascii_bytes "he") 0.
Proof.
  split; [discriminate|]. split; [reflexivity|].
  refine (read_failure_leaves_buffer 50 10 (sock (ascii_bytes "he") 0)
            (boot_flaky (quiet [ascii_bytes "abc"; ascii_bytes "de"]) 1)
            (Raise (RuntimeError [PyStr "ESP32 not responding"]))
            (snd (read 50 10
                    (sock (ascii_bytes "he") 0,
                     boot_flaky (quiet [ascii_bytes "abc"; ascii_bytes "de"])
                       1)))
            _ eq_refl _).
  - discriminate.
  - intros r H. discriminate H.
Defined.



Lemma readline_chunk_skips_timeout_witness :
  bytes_in CRLF (_buffer (sock (ascii_bytes "he") 2)) = false
  /\ 3 <> 0
  /\ readline_loop 1 0 (sock (ascii_bytes "he") 2,
                        later (quiet [ascii_bytes "llo"]) 100)
     = readline_loop 0 0
         (sock (ascii_bytes "hello") 2,
          mk_world (quiet []) (mk_stepper 100 1)
            [socket_available_ 0; print_ [PyStr "avail: "; PyInt 3];
             socket_read_ 0 3]).
Proof.
  split; [reflexivity|]. split; [discriminate|].
  refine (proj1 (readline_chunk_skips_timeout 0 0 (sock (ascii_bytes "he") 0)
            (later (quiet [ascii_bytes "llo"]) 100)
            (mk_world (mk_device [] (ascii_bytes "llo") [0; 1; 2] true
                         (PyBytes [x0a; x00; x00; x01]))
               (mk_stepper 100 1) [socket_available_ 0])
            (mk_world (quiet []) (mk_stepper 100 1)
               [socket_available_ 0; print_ [PyStr "avail: "; PyInt 3];
                socket_read_ 0 3])
            3 (ascii_bytes "llo") 2 eq_refl eq_refl _ eq_refl)).
  discriminate.
Defined.

Lemma readline_waits_within_timeout_witness :
  (0 < _timeout (sock [] 2))%Q
  /\ (2 - 0 <= _timeout (sock [] 2))%Q
  /\ readline_loop 1 0 (sock [] 2, later (quiet []) 2)
     = readline_loop 0 0
         (sock [] 2,
          mk_world (quiet []) (mk_stepper (2 + 1) 1)
            [socket_available_ 0; monotonic_]).
Proof.
  assert (2 - 0 <= _timeout (sock [] 2))%Q as Hle
    by (apply Qle_bool_iff; reflexivity).
  split; [reflexivity|]. split; [exact Hle|].
  exact (readline_waits_within_timeout 0 0 2 (sock [] 2)
           (later (quiet []) 2)
           (mk_world (quiet []) (mk_stepper 2 1) [socket_available_ 0])
           (mk_world (quiet []) (mk_stepper (2 + 1) 1)
              [socket_available_ 0; monotonic_])
           eq_refl eq_refl eq_refl eq_refl Hle).
Defined.

Lemma readline_blocks_without_timeout_witness :
  (_timeout (sock [] 0) <= 0)%Q
  /\ readline_loop 1 0 (sock [] 0, boot (quiet []))
     = readline_loop 0 0
         (sock [] 0,
          mk_world (quiet []) (mk_stepper 0 1) [socket_available_ 0]).
Proof.
  assert (_timeout (sock [] 0) <= 0)%Q as Hle
    by (apply Qle_bool_iff; reflexivity).
  split; [exact Hle|].
  exact (readline_blocks_without_timeout 0 0 (sock [] 0) (boot (quiet []))
           (mk_world (quiet []) (mk_stepper 0 1) [socket_available_ 0])
           eq_refl Hle eq_refl).
Defined.

Lemma read_loop_chunk_restamps_witness :
  0 < 7
  /\ 3 <> 0
  /\ (6 - 5 <= 8)%Q
  /\ read_loop 1 7 0 [] (sock [] 0, later (quiet [ascii_bytes "abc"]) 5)
     = read_loop 0 (7 - 3) 5 [ascii_bytes "abc"]
         (sock [] 0,
          mk_world (quiet []) (mk_stepper (5 + 1 + 1) 1)
            [socket_available_ 0; monotonic_; socket_read_ 0 3; gc_collect_;
             monotonic_]).
Proof.
  assert (6 - 5 <= 8)%Q as Hle by (apply Qle_bool_iff; reflexivity).
  split; [reflexivity|]. split; [discriminate|]. split; [exact Hle|].
  refine (read_loop_chunk_restamps 0 7 3 0 5 (5 + 1) [] (ascii_bytes "abc")
            (sock [] 0) (later (quiet [ascii_bytes "abc"]) 5)
            (mk_world (mk_device [] (ascii_bytes "abc") [0; 1; 2] true
                         (PyBytes [x0a; x00; x00; x01]))
               (mk_stepper 5 1) [socket_available_ 0])
            (mk_world (mk_device [] (ascii_bytes "abc") [0; 1; 2] true
                         (PyBytes [x0a; x00; x00; x01]))
               (mk_stepper (5 + 1) 1) [socket_available_ 0; monotonic_])
            (mk_world (quiet []) (mk_stepper (5 + 1) 1)
               [socket_available_ 0; monotonic_; socket_read_ 0 3])
            (mk_world (quiet []) (mk_stepper (5 + 1 + 1) 1)
               [socket_available_ 0; monotonic_; socket_read_ 0 3;
                gc_collect_; monotonic_])
            eq_refl eq_refl _ eq_refl eq_refl eq_refl _).
  - discriminate.
  - apply Qle_bool_iff; reflexivity.
Defined.

Lemma read_loop_idle_within_bound_witness :
  0 < 7
  /\ (8 - 0 <= 8)%Q
  /\ read_loop 1 7 0 [] (sock [] 0, later (quiet []) 8)
     = read_loop 0 7 0 []
         (sock [] 0,
          mk_world (quiet []) (mk_stepper (8 + 1) 1)
            [socket_available_ 0; monotonic_]).
Proof.
  assert (8 - 0 <= 8)%Q as Hle by (apply Qle_bool_iff; reflexivity).
  split; [reflexivity|]. split; [exact Hle|].
  exact (read_loop_idle_within_bound 0 7 0 8 [] (sock [] 0)
           (later (quiet []) 8)
           (mk_world (quiet []) (mk_stepper 8 1) [socket_available_ 0])
           (mk_world (quiet []) (mk_stepper (8 + 1) 1)
              [socket_available_ 0; monotonic_])
           eq_refl eq_refl eq_refl Hle).
Defined.


Lemma read_served_from_buffer_witness :
  0 < 3
  /\ 3 <= len (_buffer (sock (ascii_bytes "hello") 0))
  /\ read 0 3 (sock (ascii_bytes "hello") 0, boot (quiet [ascii_bytes "abc"]))
     = (Return (ascii_bytes "hel"),
        (sock (ascii_bytes "lo") 0,
         mk_world (quiet [ascii_bytes "abc"]) (mk_stepper (0 + 1) 1)
           [monotonic_; gc_collect_])).
Proof.
  split; [reflexivity|]. split; [discriminate|].
  refine (read_served_from_buffer 0 3 (sock (ascii_bytes "hello") 0)
            (boot (quiet [ascii_bytes "abc"])) eq_refl _).
  discriminate.
Defined.

Lemma read_negative_size_witness :
  -2 < 0
  /\ read 0 (-2) (sock (ascii_bytes "hello") 0,
                  boot (quiet [ascii_bytes "abc"]))
     = (Return (ascii_bytes "hel"),
        (sock (ascii_bytes "lo") 0,
         mk_world (quiet [ascii_bytes "abc"]) (mk_stepper (0 + 1) 1)
           [monotonic_; gc_collect_])).
Proof.
  split; [reflexivity|].
  exact (read_negative_size 0 (-2) (sock (ascii_bytes "hello") 0)
           (boot (quiet [ascii_bytes "abc"])) eq_refl).
Defined.


Lemma readline_after_one_chunk_witness :
  bytes_in CRLF (_buffer (sock (ascii_bytes "OK" ++ [CR]) 0)) = false
  /\ bytes_in CRLF (_buffer (sock (ascii_bytes "OK" ++ [CR]) 0)
                    ++ LF :: ascii_bytes "rest") = true
  /\ exists line rest,
       _buffer (sock (ascii_bytes "OK" ++ [CR]) 0) ++ LF :: ascii_bytes "rest"
       = line ++ CRLF ++ rest
       /\ (forall l r,
             _buffer (sock (ascii_bytes "OK" ++ [CR]) 0)
             ++ LF :: ascii_bytes "rest" = l ++ CRLF ++ r ->
             (length line <= length l)%nat)
       /\ readline 1 (sock (ascii_bytes "OK" ++ [CR]) 0,
                      boot (quiet [LF :: ascii_bytes "rest"]))
          = (Return line,
             (with_buffer rest (sock (ascii_bytes "OK" ++ [CR]) 0),
              mk_world (quiet []) (mk_stepper (0 + 1) 1)
                [monotonic_; socket_available_ 0;
                 print_ [PyStr "avail: "; PyInt 5]; socket_read_ 0 5;
                 gc_collect_])).
Proof.
  split; [reflexivity|]. split; [reflexivity|].
  refine (readline_after_one_chunk 0 (sock (ascii_bytes "OK" ++ [CR]) 0)
            (boot (quiet [LF :: ascii_bytes "rest"]))
            (snd (iface_socket_available 0
                    (snd (time_monotonic
                            (boot (quiet [LF :: ascii_bytes "rest"]))))))
            (mk_world (quiet []) (mk_stepper (0 + 1) 1)
               [monotonic_; socket_available_ 0;
                print_ [PyStr "avail: "; PyInt 5]; socket_read_ 0 5])
            5 (LF :: ascii_bytes "rest") eq_refl eq_refl _ eq_refl eq_refl).
  discriminate.
Defined.

Lemma close_then_readline_buffered_witness :
  bytes_in CRLF (_buffer (sock request 0)) = true
  /\ exists line rest,
       _buffer (sock request 0) = line ++ CRLF ++ rest
       /\ (close ;;; readline 0) (sock request 0, boot (quiet []))
          = (Return line,
             (with_buffer rest (sock request 0),
              mk_world (quiet []) (mk_stepper (0 + 1) 1)
                [socket_close_ 0; monotonic_; gc_collect_])).
Proof.
  split; [reflexivity|].
  exact (close_then_readline_buffered 0 (sock request 0) (boot (quiet []))
           (mk_world (quiet []) (mk_stepper 0 1) [socket_close_ 0])
           eq_refl eq_refl).
Defined.


Lemma socket_init_failures_witness :
  __init__ 3 5 0 PyNone (boot (quiet []))
  = (Raise (RuntimeError [PyStr "Only AF_INET family supported"]),
     boot (quiet []))
  /\ __init__ AF_INET 2 0 PyNone (boot (quiet []))
     = (Raise (RuntimeError [PyStr "Only SOCK_STREAM type supported"]),
        boot (quiet []))
  /\ __init__ AF_INET SOCK_STREAM 0 PyNone
       (boot (mk_device [] [] [] true PyNone))
     = (Raise (RuntimeError [PyStr "No sockets available"]),
        mk_world (mk_device [] [] [] true PyNone) (mk_stepper 0 1)
          [get_socket_]).
Proof.
  split; [|split].
  - refine (proj1 (socket_init_failures 3 5 0 PyNone (boot (quiet []))) _).
    discriminate.
  - refine (proj1 (proj2 (socket_init_failures AF_INET 2 0 PyNone
                            (boot (quiet [])))) eq_refl _).
    discriminate.
  - exact (proj2 (proj2 (socket_init_failures AF_INET SOCK_STREAM 0 PyNone
                           (boot (mk_device [] [] [] true PyNone))))
             eq_refl eq_refl
             (RuntimeError [PyStr "No sockets available"])
             (mk_world (mk_device [] [] [] true PyNone) (mk_stepper 0 1)
                [get_socket_])
             eq_refl).
Defined.

Lemma connect_propagates_transport_error_witness :
  connect (PyStr "example.com", PyInt 80) None
    (sock (ascii_bytes "stale") 0, boot_flaky (quiet []) 0)
  = (Raise (RuntimeError [PyStr "ESP32 not responding"]),
     (sock (ascii_bytes "stale") 0,
      mk_world (mk_flaky (quiet []) 0) (mk_stepper 0 1)
        [print_ [PyStr "connecting..."];
         socket_connect_ 0 (PyStr "example.com") (PyInt 80) 0])).
Proof.
  exact (connect_propagates_transport_error (PyStr "example.com") (PyInt 80)
           None (sock (ascii_bytes "stale") 0) (boot_flaky (quiet []) 0)
           (mk_world (mk_flaky (quiet []) 0) (mk_stepper 0 1)
              [print_ [PyStr "connecting..."];
               socket_connect_ 0 (PyStr "example.com") (PyInt 80) 0])
           (RuntimeError [PyStr "ESP32 not responding"]) eq_refl).
Defined.

Lemma read_ignores_timeout_witness :
  10 <> 0
  /\ read 50 10 (with_timeout 1 (sock [] 0), boot (quiet [ascii_bytes "abc"]))
     = (Return (ascii_bytes "abc"),
        (with_timeout 1 (sock [] 0),
         snd (snd (read 50 10
                     (sock [] 0, boot (quiet [ascii_bytes "abc"])))))).
Proof.
  split; [discriminate|].
  refine (read_ignores_timeout 50 10 (sock [] 0)
            (boot (quiet [ascii_bytes "abc"])) 1 _).
  discriminate.
Defined.
